(** * realtime-pals: presence, friend requests and conversation sync

    A shallow embedding of the synchronisation core of the chat client:
    - the relational schema, row-level policies and triggers of
      [supabase/migrations/20251024193900_*.sql];
    - the friend-request handlers of [components/chat/Sidebar.tsx];
    - the conversation loader, live handler and sender of
      [components/chat/ChatArea.tsx];
    - the presence heartbeat of [pages/Chat.tsx].

    Tables are lists of rows.  Every writing statement a component sends
    through the client is interpreted by [exec], which applies the policies,
    constraints and triggers of the migration and records the statement in a
    journal. *)

From Stdlib Require Import List ZArith NArith Ascii String Bool Arith Lia.
From Stdlib Require Import Sorted Permutation.
Import ListNotations.

Set Implicit Arguments.

(** ** Basic data *)

(** Row keys are UUIDs, used by the code only through equality. *)
Definition uuid := nat.

(** Timestamps ([now()], [new Date()]) in milliseconds. *)
Definition timestamp := Z.

(** A JavaScript string is a sequence of UTF-16 code units. *)
Definition jsstring := list N.

(** [gen_random_uuid()]: the column default of every [id] column.  The model
    draws a key that is not used in the table yet. *)
Definition gen_random_uuid (used : list uuid) : uuid := S (list_max used).

(** [status TEXT ... CHECK (status IN ('pending', 'accepted', 'rejected'))] *)
Inductive req_status := pending | accepted | rejected.

Definition req_status_eqb (a b : req_status) : bool :=
  match a, b with
  | pending, pending | accepted, accepted | rejected, rejected => true
  | _, _ => false
  end.

Module Profile.
Record t := mk {
  id : uuid;
  email : string;
  display_name : option string;
  avatar_url : option string;
  status : string;
  last_seen : timestamp;
  created_at : timestamp;
  updated_at : timestamp }.
End Profile.

Module FriendRequest.
Record t := mk {
  id : uuid;
  sender_id : uuid;
  receiver_id : uuid;
  status : req_status;
  created_at : timestamp;
  updated_at : timestamp }.
End FriendRequest.

Module Friendship.
Record t := mk {
  id : uuid;
  user_id : uuid;
  friend_id : uuid;
  created_at : timestamp }.
End Friendship.

Module Message.
Record t := mk {
  id : uuid;
  sender_id : uuid;
  receiver_id : uuid;
  content : jsstring;
  read : bool;
  created_at : timestamp }.
End Message.

(** ** The datastore *)

(** The statements the components send. *)
Inductive stmt :=
  (* from('friend_requests').insert({sender_id, receiver_id, status}) *)
| insert_friend_request (sender_id receiver_id : uuid) (status : req_status)
  (* from('friend_requests').update({status}).eq('id', id) *)
| update_friend_request (status : req_status) (eq_id : uuid)
  (* from('messages').insert({sender_id, receiver_id, content}) *)
| insert_message (sender_id receiver_id : uuid) (content : jsstring)
  (* from('messages').update({read: true}).in('id', ids) *)
| update_messages_read_in (in_ids : list uuid)
  (* from('messages').update({read: true}).eq('id', id) *)
| update_messages_read_eq (eq_id : uuid)
  (* from('profiles').update({status, last_seen}).eq('id', id) *)
| update_profile (status : string) (last_seen : timestamp) (eq_id : uuid).

(** One journal line per writing statement (INSERT or UPDATE) sent: when, on
    whose behalf, what.  Reads (SELECT) are not journalled. *)
Record entry := mk_entry {
  e_at : timestamp;
  e_auth : uuid;
  e_stmt : stmt }.

Record db := mk_db {
  profiles : list Profile.t;
  friend_requests : list FriendRequest.t;
  friendships : list Friendship.t;
  messages : list Message.t;
  journal : list entry }.

Record pg_error := mk_error { code : string; message : string }.

Inductive pg_result := PgOk | PgError (e : pg_error).

Definition unique_violation : pg_error :=
  mk_error "23505" "duplicate key value violates unique constraint".
Definition foreign_key_violation : pg_error :=
  mk_error "23503" "insert or update on table violates foreign key constraint".
Definition rls_violation : pg_error :=
  mk_error "42501" "new row violates row-level security policy".

Definition untranslatable_character : pg_error :=
  mk_error "22P05" "unsupported Unicode escape sequence".

(** What a [TEXT] value can hold of a JavaScript string: no U+0000, and
    every surrogate code unit in a high-low pair. *)
Definition is_high_surrogate (c : N) : bool := ((55296 <=? c) && (c <=? 56319))%N.
Definition is_low_surrogate (c : N) : bool := ((56320 <=? c) && (c <=? 57343))%N.

Fixpoint storable_text (s : jsstring) : bool :=
  match s with
  | [] => true
  | c :: rest =>
      if (c =? 0)%N then false
      else if is_high_surrogate c then
        match rest with
        | c' :: rest' => is_low_surrogate c' && storable_text rest'
        | [] => false
        end
      else if is_low_surrogate c then false
      else storable_text rest
  end.

(** [REFERENCES public.profiles(id)] *)
Definition profile_exists (ps : list Profile.t) (u : uuid) : bool :=
  existsb (fun p => Profile.id p =? u) ps.

(** [UNIQUE(sender_id, receiver_id)] *)
Definition request_exists (rs : list FriendRequest.t) (s r : uuid) : bool :=
  existsb (fun q => (FriendRequest.sender_id q =? s)
                    && (FriendRequest.receiver_id q =? r)) rs.

(** [UNIQUE(user_id, friend_id)] *)
Definition friendship_exists (fs : list Friendship.t) (u f : uuid) : bool :=
  existsb (fun e => (Friendship.user_id e =? u)
                    && (Friendship.friend_id e =? f)) fs.

(** A transaction's working state: the four tables (the journal is outside
    the transaction). On an error the statement is rolled back as a whole. *)
Inductive tx (A : Type) := Commit (a : A) | Abort (e : pg_error).
Arguments Abort {A} e.

Definition tx_bind {A B} (m : tx A) (k : A -> tx B) : tx B :=
  match m with
  | Commit a => k a
  | Abort e => Abort e
  end.

Notation "x <- m ;; k" := (tx_bind m (fun x => k))
  (at level 61, m at next level, right associativity).

(** [INSERT INTO public.friendships (user_id, friend_id) VALUES (u, f)
     ON CONFLICT DO NOTHING] *)
Definition insert_friendship_on_conflict_do_nothing
    (now : timestamp) (ps : list Profile.t) (u f : uuid)
    (fs : list Friendship.t) : tx (list Friendship.t) :=
  if friendship_exists fs u f then Commit fs
  else if profile_exists ps u && profile_exists ps f then
    Commit (fs ++ [Friendship.mk
                     (gen_random_uuid (map Friendship.id fs)) u f now])
  else Abort foreign_key_violation.

(** The trigger function [public.create_friendship()]. *)
Definition create_friendship
    (now : timestamp) (ps : list Profile.t) (NEW : FriendRequest.t)
    (fs : list Friendship.t) : tx (list Friendship.t) :=
  if req_status_eqb (FriendRequest.status NEW) accepted then
    fs1 <- insert_friendship_on_conflict_do_nothing now ps
             (FriendRequest.sender_id NEW) (FriendRequest.receiver_id NEW) fs ;;
    insert_friendship_on_conflict_do_nothing now ps
      (FriendRequest.receiver_id NEW) (FriendRequest.sender_id NEW) fs1
  else Commit fs.

(** The trigger [on_friend_request_accepted]:
    [AFTER UPDATE ... FOR EACH ROW
     WHEN (NEW.status = 'accepted' AND OLD.status = 'pending')]. *)
Definition on_friend_request_accepted
    (now : timestamp) (ps : list Profile.t) (OLD NEW : FriendRequest.t)
    (fs : list Friendship.t) : tx (list Friendship.t) :=
  if req_status_eqb (FriendRequest.status NEW) accepted
     && req_status_eqb (FriendRequest.status OLD) pending
  then create_friendship now ps NEW fs
  else Commit fs.

(** Policy "Users can update received requests":
    [FOR UPDATE USING (auth.uid() = receiver_id)]. *)
Definition can_update_request (auth : uuid) (q : FriendRequest.t) : bool :=
  auth =? FriendRequest.receiver_id q.

(** [UPDATE friend_requests SET status = s WHERE id = rid], row by row:
    rows hidden by the policy or not matching are left alone; a matching row
    gets the new status, [updated_at = now()] from the BEFORE trigger
    [update_friend_requests_updated_at], and then the AFTER trigger. *)
Fixpoint update_requests
    (now : timestamp) (auth : uuid) (ps : list Profile.t)
    (s : req_status) (rid : uuid)
    (rs : list FriendRequest.t) (fs : list Friendship.t)
    : tx (list FriendRequest.t * list Friendship.t) :=
  match rs with
  | [] => Commit ([], fs)
  | OLD :: rest =>
      if (FriendRequest.id OLD =? rid) && can_update_request auth OLD then
        let NEW := FriendRequest.mk (FriendRequest.id OLD)
                     (FriendRequest.sender_id OLD)
                     (FriendRequest.receiver_id OLD)
                     s (FriendRequest.created_at OLD) now in
        fs1 <- on_friend_request_accepted now ps OLD NEW fs ;;
        p <- update_requests now auth ps s rid rest fs1 ;;
        Commit (NEW :: fst p, snd p)
      else
        p <- update_requests now auth ps s rid rest fs ;;
        Commit (OLD :: fst p, snd p)
  end.

(** Policy "Users can update received messages":
    [FOR UPDATE USING (auth.uid() = receiver_id)]. *)
Definition can_update_message (auth : uuid) (m : Message.t) : bool :=
  auth =? Message.receiver_id m.

(** Policy "Users can view their messages":
    [FOR SELECT USING (auth.uid() = sender_id OR auth.uid() = receiver_id)]. *)
Definition can_view_message (auth : uuid) (m : Message.t) : bool :=
  (auth =? Message.sender_id m) || (auth =? Message.receiver_id m).

Definition set_read (m : Message.t) : Message.t :=
  Message.mk (Message.id m) (Message.sender_id m) (Message.receiver_id m)
    (Message.content m) true (Message.created_at m).

(** [UPDATE messages SET read = true WHERE <sel>] under the update policy. *)
Definition update_read (auth : uuid) (sel : Message.t -> bool)
    (ms : list Message.t) : list Message.t :=
  map (fun m => if sel m && can_update_message auth m then set_read m else m) ms.

(** Policy "Users can update own profile":
    [FOR UPDATE USING (auth.uid() = id)]; BEFORE trigger
    [update_profiles_updated_at]. *)
Definition update_profiles (now : timestamp) (auth : uuid)
    (st : string) (seen : timestamp) (pid : uuid)
    (ps : list Profile.t) : list Profile.t :=
  map (fun p =>
         if (Profile.id p =? pid) && (auth =? Profile.id p) then
           Profile.mk (Profile.id p) (Profile.email p)
             (Profile.display_name p) (Profile.avatar_url p)
             st seen (Profile.created_at p) now
         else p) ps.

(** The tables after a statement, or the error that rolls it back. *)
Definition run_stmt (now : timestamp) (auth : uuid) (s : stmt) (d : db)
    : tx db :=
  match s with
  | insert_friend_request sender receiver st =>
      (* "Users can create friend requests": WITH CHECK (auth.uid() = sender_id) *)
      if negb (auth =? sender) then Abort rls_violation
      else if request_exists (friend_requests d) sender receiver
      then Abort unique_violation
      else if negb (profile_exists (profiles d) sender
                    && profile_exists (profiles d) receiver)
      then Abort foreign_key_violation
      else Commit (mk_db (profiles d)
             (friend_requests d ++
                [FriendRequest.mk
                   (gen_random_uuid (map FriendRequest.id (friend_requests d)))
                   sender receiver st now now])
             (friendships d) (messages d) (journal d))
  | update_friend_request st rid =>
      p <- update_requests now auth (profiles d) st rid
             (friend_requests d) (friendships d) ;;
      Commit (mk_db (profiles d) (fst p) (snd p) (messages d) (journal d))
  | insert_message sender receiver text =>
      (* the request body must convert to [content TEXT] *)
      if negb (storable_text text) then Abort untranslatable_character
      (* "Users can send messages": WITH CHECK (auth.uid() = sender_id) *)
      else if negb (auth =? sender) then Abort rls_violation
      else if negb (profile_exists (profiles d) sender
                    && profile_exists (profiles d) receiver)
      then Abort foreign_key_violation
      else Commit (mk_db (profiles d) (friend_requests d) (friendships d)
             (messages d ++
                [Message.mk (gen_random_uuid (map Message.id (messages d)))
                   sender receiver text false now])
             (journal d))
  | update_messages_read_in ids =>
      Commit (mk_db (profiles d) (friend_requests d) (friendships d)
                (update_read auth
                   (fun m => existsb (Nat.eqb (Message.id m)) ids)
                   (messages d))
                (journal d))
  | update_messages_read_eq mid =>
      Commit (mk_db (profiles d) (friend_requests d) (friendships d)
                (update_read auth (fun m => Message.id m =? mid) (messages d))
                (journal d))
  | update_profile st seen pid =>
      Commit (mk_db (update_profiles now auth st seen pid (profiles d))
                (friend_requests d) (friendships d) (messages d) (journal d))
  end.

Definition log (now : timestamp) (auth : uuid) (s : stmt) (d : db) : db :=
  mk_db (profiles d) (friend_requests d) (friendships d) (messages d)
    (journal d ++ [mk_entry now auth s]).

(** Send one statement: it is journalled, then committed or rolled back. *)
Definition exec (now : timestamp) (auth : uuid) (s : stmt) (d : db)
    : pg_result * db :=
  match run_stmt now auth s d with
  | Commit d' => (PgOk, log now auth s d')
  | Abort e => (PgError e, log now auth s d)
  end.

(** ** Sign-up *)

(** A row of [auth.users] as the sign-up trigger reads it: [new.id],
    [new.email] (nullable there) and
    [new.raw_user_meta_data->>'display_name'] (NULL when the key is absent). *)
Record auth_user := mk_auth_user {
  au_id : uuid;
  au_email : option string;
  au_display_name : option string }.

Definition not_null_violation : pg_error :=
  mk_error "23502" "null value in column violates not-null constraint".

(** [split_part(s, delim, 1)] for a one-character delimiter: the text before
    the first [delim], or all of [s] when there is none. *)
Fixpoint split_part_1 (delim : ascii) (s : string) : string :=
  match s with
  | EmptyString => EmptyString
  | String c rest =>
      if Ascii.eqb c delim then EmptyString
      else String c (split_part_1 delim rest)
  end.

(** [COALESCE(a, b)] *)
Definition coalesce (a : option string) (b : string) : string :=
  match a with
  | Some x => x
  | None => b
  end.

(** The trigger function [public.handle_new_user()], run by
    [on_auth_user_created] AFTER INSERT ON auth.users: one row into
    [profiles] under the table's column defaults, [email TEXT NOT NULL] and
    the primary key on [id]. *)
Definition handle_new_user (now : timestamp) (NEW : auth_user)
    (ps : list Profile.t) : tx (list Profile.t) :=
  match au_email NEW with
  | None => Abort not_null_violation
  | Some mail =>
      if profile_exists ps (au_id NEW) then Abort unique_violation
      else Commit (ps ++ [Profile.mk (au_id NEW) mail
                            (Some (coalesce (au_display_name NEW)
                                     (split_part_1 "@" mail)))
                            None "offline" now now now])
  end.

(** A sign-up seen from the datastore: the profile row is there, or the
    insert into [auth.users] is rolled back with the trigger's error. *)
Definition sign_up (now : timestamp) (NEW : auth_user) (d : db)
    : pg_result * db :=
  match handle_new_user now NEW (profiles d) with
  | Commit ps => (PgOk, mk_db ps (friend_requests d) (friendships d)
                          (messages d) (journal d))
  | Abort e => (PgError e, d)
  end.

(** ** The client library *)

(** [toast.error(msg)] and [toast.success(msg)] of sonner. *)
Inductive toast := toast_error (msg : string) | toast_success (msg : string).

(** [.single()]: the row when the query matched exactly one, else [null]. *)
Definition single {A : Type} (rows : list A) : option A :=
  match rows with
  | [r] => Some r
  | _ => None
  end.

(** PostgREST filter trees over the UUID columns of [messages], as in
    [or(and(sender_id.eq.A,receiver_id.eq.B),and(...))]. *)
Inductive msg_column := col_sender_id | col_receiver_id.

Inductive pg_filter :=
| f_eq (c : msg_column) (v : uuid)
| f_and (a b : pg_filter)
| f_or (a b : pg_filter).

Definition column_of (c : msg_column) (m : Message.t) : uuid :=
  match c with
  | col_sender_id => Message.sender_id m
  | col_receiver_id => Message.receiver_id m
  end.

Fixpoint matches (f : pg_filter) (m : Message.t) : bool :=
  match f with
  | f_eq c v => column_of c m =? v
  | f_and a b => matches a m && matches b m
  | f_or a b => matches a m || matches b m
  end.

(** [ORDER BY created_at] names no second key: among rows with the same
    [created_at] the datastore answers in an order of its own, which may
    differ from one query to the next.  A [tie_order] is that choice for
    one query: [tie m x] says that [m] comes before [x] when they tie. *)
Definition tie_order := Message.t -> Message.t -> bool.

(** [.order('created_at', { ascending: true })] *)
Fixpoint insert_by_created_at (tie : tie_order) (m : Message.t)
    (l : list Message.t) : list Message.t :=
  match l with
  | [] => [m]
  | x :: rest =>
      if (Message.created_at m <? Message.created_at x)%Z
         || (Message.created_at m =? Message.created_at x)%Z && tie m x
      then m :: l
      else x :: insert_by_created_at tie m rest
  end.

Definition order_by_created_at (tie : tie_order) (l : list Message.t)
    : list Message.t :=
  fold_right (insert_by_created_at tie) [] l.

(** [from('messages').select('*').or(f).order('created_at', ...)] as seen by
    [auth] through the select policy. *)
Definition select_messages (tie : tie_order) (auth : uuid) (f : pg_filter)
    (d : db) : list Message.t :=
  order_by_created_at tie
    (filter (fun m => can_view_message auth m && matches f m) (messages d)).

(** A query builder of the client library is a thenable: its statement is
    sent when the builder is awaited (or [.then()] is called on it), which
    is [exec].  A builder that is built as an expression statement and
    dropped sends nothing. *)
Inductive builder := Build (auth : uuid) (s : stmt).

Definition dropped (b : builder) (d : db) : db := d.

(** The [filter] of a [postgres_changes] subscription is one comparison,
    [column=operator.value]; its column is the text before the first "=". *)
Definition filter_column (f : string) : string := split_part_1 "=" f.

(** The columns of [public.messages]. *)
Definition message_columns : list string :=
  ["id"; "sender_id"; "receiver_id"; "content"; "read"; "created_at"]%string.

(** ** Sidebar.tsx *)

Module Sidebar.

Record state := mk {
  searchEmail : string;
  searching : bool }.

Definition setSearchEmail (e : string) (s : state) : state :=
  mk e (searching s).

Definition setSearching (b : bool) (s : state) : state :=
  mk (searchEmail s) b.

(** [sendFriendRequest]: the toasts shown, the component state and the
    datastore afterwards. *)
Definition sendFriendRequest (now : timestamp) (currentUserId : uuid)
    (s : state) (d : db) : list toast * state * db :=
  if String.eqb (searchEmail s) "" then ([], s, d)
  else
    match single (filter (fun p => String.eqb (Profile.email p) (searchEmail s))
                    (profiles d)) with
    | None => ([toast_error "User not found"], setSearching false s, d)
    | Some p =>
        if Profile.id p =? currentUserId then
          ([toast_error "You cannot add yourself"], setSearching false s, d)
        else
          match exec now currentUserId
                  (insert_friend_request currentUserId (Profile.id p) pending) d
          with
          | (PgError e, d') =>
              if String.eqb (code e) "23505" then
                ([toast_error "Friend request already sent"],
                 setSearching false s, d')
              else ([toast_error (message e)], setSearching false s, d')
          | (PgOk, d') =>
              ([toast_success "Friend request sent!"],
               setSearching false (setSearchEmail "" s), d')
          end
    end.

Definition acceptRequest (now : timestamp) (currentUserId : uuid)
    (requestId : uuid) (d : db) : list toast * db :=
  match exec now currentUserId (update_friend_request accepted requestId) d
  with
  | (PgError e, d') => ([toast_error (message e)], d')
  | (PgOk, d') => ([toast_success "Friend request accepted!"], d')
  end.

Definition rejectRequest (now : timestamp) (currentUserId : uuid)
    (requestId : uuid) (d : db) : list toast * db :=
  match exec now currentUserId (update_friend_request rejected requestId) d
  with
  | (PgError e, d') => ([toast_error (message e)], d')
  | (PgOk, d') => ([toast_success "Friend request rejected"], d')
  end.

End Sidebar.

(** ** ChatArea.tsx *)

(** ECMAScript WhiteSpace and LineTerminator code points, all in the BMP:
    what [String.prototype.trim] strips. *)
Definition is_white_space (c : N) : bool :=
  ((9 <=? c) && (c <=? 13) || (c =? 32) || (c =? 160) || (c =? 5760)
   || (8192 <=? c) && (c <=? 8202) || (c =? 8232) || (c =? 8233)
   || (c =? 8239) || (c =? 8287) || (c =? 12288) || (c =? 65279))%N.

Fixpoint trimStart (s : jsstring) : jsstring :=
  match s with
  | [] => []
  | c :: rest => if is_white_space c then trimStart rest else s
  end.

Definition trimEnd (s : jsstring) : jsstring := rev (trimStart (rev s)).

Definition trim (s : jsstring) : jsstring := trimEnd (trimStart s).

(** [!str]: the empty string is the only falsy string. *)
Definition falsy (s : jsstring) : bool :=
  match s with
  | [] => true
  | _ => false
  end.

Module ChatArea.

Record state := mk {
  messages : list Message.t;
  newMessage : jsstring;
  sending : bool }.

(** The filter tree of the loader's [.or(...)]. *)
Definition conversation (currentUserId friend : uuid) : pg_filter :=
  f_or (f_and (f_eq col_sender_id currentUserId) (f_eq col_receiver_id friend))
       (f_and (f_eq col_sender_id friend) (f_eq col_receiver_id currentUserId)).

(** [loadMessages] for a selected friend, the query answering with [data]
    (the branch [if (data)]) in the tie order [tie]. *)
Definition loadMessages (tie : tie_order) (now : timestamp)
    (currentUserId : uuid) (selectedFriend : Profile.t) (s : state) (d : db)
    : state * db :=
  let data := select_messages tie currentUserId
                (conversation currentUserId (Profile.id selectedFriend)) d in
  let s' := mk data (newMessage s) (sending s) in
  let unreadIds :=
    map Message.id
      (filter (fun m => (Message.receiver_id m =? currentUserId)
                        && negb (Message.read m)) data) in
  if 0 <? List.length unreadIds then
    (s', snd (exec now currentUserId (update_messages_read_in unreadIds) d))
  else (s', d).

(** The [filter] string the channel is subscribed with, [show] giving the
    text of a UUID in the template literal. *)
Definition channel_filter (show : uuid -> string) (currentUserId friend : uuid)
    : string :=
  ("or(and(sender_id.eq." ++ show currentUserId
   ++ ",receiver_id.eq." ++ show friend
   ++ "),and(sender_id.eq." ++ show friend
   ++ ",receiver_id.eq." ++ show currentUserId ++ "))")%string.

(** The channel's callback for one INSERT event: the local append, and for
    a message addressed to the user the read update, which is built and not
    awaited. *)
Definition on_insert (now : timestamp) (currentUserId : uuid)
    (payload_new : Message.t) (s : state) (d : db) : state * db :=
  let s' := mk (messages s ++ [payload_new]) (newMessage s) (sending s) in
  if Message.receiver_id payload_new =? currentUserId then
    (s', dropped (Build currentUserId
                    (update_messages_read_eq (Message.id payload_new))) d)
  else (s', d).

Definition sendMessage (now : timestamp) (currentUserId : uuid)
    (selectedFriend : option Profile.t) (s : state) (d : db)
    : list toast * state * db :=
  match selectedFriend with
  | Some friend =>
      if falsy (trim (newMessage s)) || sending s then ([], s, d)
      else
        match exec now currentUserId
                (insert_message currentUserId (Profile.id friend)
                   (trim (newMessage s))) d
        with
        | (PgError e, d') =>
            ([toast_error (message e)], mk (messages s) (newMessage s) false, d')
        | (PgOk, d') => ([], mk (messages s) [] false, d')
        end
  | None => ([], s, d)
  end.

End ChatArea.

(** ** pages/Chat.tsx: presence *)

Module Chat.

(** [setInterval(updateStatus, 30000)] *)
Definition heartbeat_ms : Z := 30000.

(** The effect's timer: when the interval callback is next due, or [None]
    when no interval is set (never set, or cleared). *)
Record state := mk { interval : option timestamp }.

Definition updateStatus (now : timestamp) (user_id : uuid) (d : db) : db :=
  snd (exec now user_id (update_profile "online" now user_id) d).

(** The effect body, run when the session's [user] is known. *)
Definition mount (now : timestamp) (user : option uuid) (d : db)
    : state * db :=
  match user with
  | None => (mk None, d)
  | Some user_id =>
      (mk (Some (now + heartbeat_ms)%Z), updateStatus now user_id d)
  end.

(** The interval fires: [updateStatus] runs at the due time and the timer
    is re-armed one period later. *)
Definition tick (user_id : uuid) (s : state) (d : db) : state * db :=
  match interval s with
  | Some due => (mk (Some (due + heartbeat_ms)%Z), updateStatus due user_id d)
  | None => (s, d)
  end.

(** The effect's cleanup: [clearInterval], then the offline write, which is
    built and not awaited. *)
Definition unmount (now : timestamp) (user : option uuid) (s : state)
    (d : db) : state * db :=
  match user with
  | None => (s, d)
  | Some user_id =>
      (mk None,
       dropped (Build user_id (update_profile "offline" now user_id)) d)
  end.

(** The [filter] strings of the channels [friendships-changes] and
    [requests-changes]. *)
Definition friendships_filter (show : uuid -> string) (user_id : uuid)
    : string :=
  ("user_id=eq." ++ show user_id)%string.

Definition requests_filter (show : uuid -> string) (user_id : uuid) : string :=
  ("receiver_id=eq." ++ show user_id)%string.

(** The event loop up to time [until]: every firing that is due by then. *)
Fixpoint run_timers (fuel : nat) (until : timestamp) (user_id : uuid)
    (s : state) (d : db) : state * db :=
  match fuel with
  | O => (s, d)
  | S fuel' =>
      match interval s with
      | Some due =>
          if (due <=? until)%Z then
            let (s', d') := tick user_id s d in
            run_timers fuel' until user_id s' d'
          else (s, d)
      | None => (s, d)
      end
  end.

Definition firings (until : timestamp) (s : state) : nat :=
  match interval s with
  | Some due =>
      if (due <=? until)%Z then S (Z.to_nat ((until - due) / heartbeat_ms))
      else O
  | None => O
  end.

Definition advance (until : timestamp) (user_id : uuid) (s : state) (d : db)
    : state * db :=
  run_timers (firings until s) until user_id s d.

(** A whole session of [user_id]: mounted at [t0], torn down at [t1]. *)
Definition session (t0 t1 : timestamp) (user_id : uuid) (d : db)
    : state * db :=
  let (s0, d0) := mount t0 (Some user_id) d in
  let (s1, d1) := advance t1 user_id s0 d0 in
  unmount t1 (Some user_id) s1 d1.

(** Policy "Users can view their friendships":
    [FOR SELECT USING (auth.uid() = user_id OR auth.uid() = friend_id)]. *)
Definition can_view_friendship (auth : uuid) (e : Friendship.t) : bool :=
  (auth =? Friendship.user_id e) || (auth =? Friendship.friend_id e).

(** Policy "Users can view their friend requests":
    [FOR SELECT USING (auth.uid() = sender_id OR auth.uid() = receiver_id)]. *)
Definition can_view_request (auth : uuid) (q : FriendRequest.t) : bool :=
  (auth =? FriendRequest.sender_id q) || (auth =? FriendRequest.receiver_id q).

(** [loadFriends]: the new [friends] state.  Profiles are readable by all
    ("Users can view all profiles"). *)
Definition loadFriends (user_id : uuid) (d : db) : list Profile.t :=
  let friendshipsData :=
    filter (fun e => can_view_friendship user_id e
                     && (Friendship.user_id e =? user_id)) (friendships d) in
  let friendIds := map Friendship.friend_id friendshipsData in
  filter (fun p => existsb (Nat.eqb (Profile.id p)) friendIds) (profiles d).

(** [loadRequests]: the new [friendRequests] state, each row with its
    embedded [sender] profile ([null] when there is none). *)
Definition loadRequests (user_id : uuid) (d : db)
    : list (FriendRequest.t * option Profile.t) :=
  map (fun q => (q, find (fun p => Profile.id p =? FriendRequest.sender_id q)
                      (profiles d)))
    (filter (fun q => can_view_request user_id q
                      && (FriendRequest.receiver_id q =? user_id)
                      && req_status_eqb (FriendRequest.status q) pending)
       (friend_requests d)).

End Chat.

(** ** Operations of the core, as one transition system *)

Inductive op :=
| op_sendFriendRequest (user : uuid) (s : Sidebar.state)
| op_acceptRequest (user requestId : uuid)
| op_rejectRequest (user requestId : uuid)
| op_loadMessages (tie : tie_order) (user : uuid) (friend : Profile.t)
    (s : ChatArea.state)
| op_on_insert (user : uuid) (payload_new : Message.t) (s : ChatArea.state)
| op_sendMessage (user : uuid) (friend : option Profile.t) (s : ChatArea.state)
| op_updateStatus (user : uuid)
| op_unmount (user : uuid) (s : Chat.state).

(** The session on whose behalf an operation runs. *)
Definition actor (o : op) : uuid :=
  match o with
  | op_sendFriendRequest u _ | op_acceptRequest u _ | op_rejectRequest u _
  | op_loadMessages _ u _ _ | op_on_insert u _ _ | op_sendMessage u _ _
  | op_updateStatus u | op_unmount u _ => u
  end.

Definition step (now : timestamp) (o : op) (d : db) : db :=
  match o with
  | op_sendFriendRequest u s => snd (Sidebar.sendFriendRequest now u s d)
  | op_acceptRequest u rid => snd (Sidebar.acceptRequest now u rid d)
  | op_rejectRequest u rid => snd (Sidebar.rejectRequest now u rid d)
  | op_loadMessages tie u f s => snd (ChatArea.loadMessages tie now u f s d)
  | op_on_insert u m s => snd (ChatArea.on_insert now u m s d)
  | op_sendMessage u f s => snd (ChatArea.sendMessage now u f s d)
  | op_updateStatus u => Chat.updateStatus now u d
  | op_unmount u s => snd (Chat.unmount now (Some u) s d)
  end.

Fixpoint run (ops : list (timestamp * op)) (d : db) : db :=
  match ops with
  | [] => d
  | (now, o) :: rest => run rest (step now o d)
  end.

(** ** Example data *)

Definition alice : uuid := 1.
Definition bob : uuid := 2.
Definition carol : uuid := 3.

Definition profile_of (u : uuid) (mail : string) : Profile.t :=
  Profile.mk u mail None None "offline" 0%Z 0%Z 0%Z.

Definition people : list Profile.t :=
  [profile_of alice "alice@x.com"; profile_of bob "bob@x.com";
   profile_of carol "carol@x.com"].

Definition db0 : db := mk_db people [] [] [] [].

(** "hi" and "  " as code units. *)
Definition hi : jsstring := [104; 105]%N.
Definition blanks : jsstring := [32; 32]%N.

(** * Properties *)

(** ** Shared vocabulary *)

(** The unordered pair {s, r} is the unordered pair {a, b}. *)
Definition same_pair (s r a b : uuid) : Prop :=
  (s = a /\ r = b) \/ (s = b /\ r = a).

Definition same_pairb (a b : uuid) (m : Message.t) : bool :=
  (Message.sender_id m =? a) && (Message.receiver_id m =? b)
  || (Message.sender_id m =? b) && (Message.receiver_id m =? a).

(** How many entries of a message list carry the id [i]. *)
Definition count_id (i : uuid) (ms : list Message.t) : nat :=
  List.length (filter (fun m => Message.id m =? i) ms).

(** The live handler run over a sequence of delivered events. *)
Fixpoint deliver_all (now : timestamp) (currentUserId : uuid)
    (events : list Message.t) (s : ChatArea.state) (d : db)
    : ChatArea.state * db :=
  match events with
  | [] => (s, d)
  | ev :: rest =>
      let (s', d') := ChatArea.on_insert now currentUserId ev s d in
      deliver_all now currentUserId rest s' d'
  end.

Definition all_white (s : jsstring) : Prop :=
  Forall (fun c => is_white_space c = true) s.

Definition starts_clean (s : jsstring) : Prop :=
  match s with
  | [] => True
  | c :: _ => is_white_space c = false
  end.

(** [out] is [input] without its leading and trailing white space. *)
Definition stripped (input out : jsstring) : Prop :=
  exists l r, input = l ++ out ++ r /\ all_white l /\ all_white r
              /\ starts_clean out /\ starts_clean (rev out).

Definition edges (fs : list Friendship.t) : list (uuid * uuid) :=
  map (fun e => (Friendship.user_id e, Friendship.friend_id e)) fs.

Definition find_request (rid : uuid) (rs : list FriendRequest.t)
    : option FriendRequest.t :=
  find (fun q => FriendRequest.id q =? rid) rs.

Definition with_status (s : req_status) (now : timestamp)
    (q : FriendRequest.t) : FriendRequest.t :=
  FriendRequest.mk (FriendRequest.id q) (FriendRequest.sender_id q)
    (FriendRequest.receiver_id q) s (FriendRequest.created_at q) now.

Definition created_le (x y : Message.t) : Prop :=
  (Message.created_at x <= Message.created_at y)%Z.

(** Example: "hi" from alice to bob, stored but not yet read. *)
Definition msg_hi : Message.t := Message.mk 1 alice bob hi false 20%Z.

Definition db_hi : db := mk_db people [] [] [msg_hi] [].

Definition idle : ChatArea.state := ChatArea.mk [] [] false.

(** One stored message before and after some operations run on behalf of
    [actors]: the same row, its read flag never cleared, and set only if the
    receiver is among the actors. *)
Definition read_step_by (actors : list uuid) (m m' : Message.t) : Prop :=
  Message.id m' = Message.id m
  /\ Message.sender_id m' = Message.sender_id m
  /\ Message.receiver_id m' = Message.receiver_id m
  /\ Message.content m' = Message.content m
  /\ Message.created_at m' = Message.created_at m
  /\ (Message.read m = true -> Message.read m' = true)
  /\ (Message.read m = false -> Message.read m' = true ->
      In (Message.receiver_id m) actors).

(** The messages table before and after: every old row is still there, in
    place, related by [read_step_by]; new rows come after. *)
Definition evolves (actors : list uuid) (ms ms' : list Message.t) : Prop :=
  exists kept more, ms' = kept ++ more /\ Forall2 (read_step_by actors) ms kept.

(** The two presence writes of [pages/Chat.tsx], as journal lines. *)
Definition online_at (user_id : uuid) (t : timestamp) : entry :=
  mk_entry t user_id (update_profile "online" t user_id).

Definition offline_at (user_id : uuid) (t : timestamp) : entry :=
  mk_entry t user_id (update_profile "offline" t user_id).

(** [n] instants one heartbeat period apart, from [t0] on. *)
Definition beat_times (t0 : timestamp) (n : nat) : list timestamp :=
  map (fun k => (t0 + Chat.heartbeat_ms * Z.of_nat k)%Z) (seq 0 n).

(** A profile row before and after presence writes of [user_id]: only the
    presence fields (and [updated_at]) of that user's own row may differ. *)
Definition kept (user_id : uuid) (p p' : Profile.t) : Prop :=
  Profile.id p' = Profile.id p
  /\ Profile.email p' = Profile.email p
  /\ Profile.display_name p' = Profile.display_name p
  /\ Profile.avatar_url p' = Profile.avatar_url p
  /\ Profile.created_at p' = Profile.created_at p
  /\ (Profile.id p <> user_id -> p' = p).

Definition presence_of (user_id : uuid) (st : string) (seen : timestamp)
    (p p' : Profile.t) : Prop :=
  kept user_id p p'
  /\ (Profile.id p = user_id ->
      Profile.status p' = st /\ Profile.last_seen p' = seen).

(** The requests stored for the ordered pair (a, b). *)
Definition requests_between (a b : uuid) (rs : list FriendRequest.t)
    : list FriendRequest.t :=
  filter (fun q => (FriendRequest.sender_id q =? a)
                   && (FriendRequest.receiver_id q =? b)) rs.

(** Example: a pending request from alice to bob. *)
Definition req_ab : FriendRequest.t :=
  FriendRequest.mk 7 alice bob pending 10%Z 10%Z.

Definition db_pending : db := mk_db people [req_ab] [] [] [].

(** What one [INSERT ... ON CONFLICT DO NOTHING] leaves behind. *)
Definition adds_edge (u f : uuid) (fs fs' : list Friendship.t) : Prop :=
  (exists more, fs' = fs ++ more)
  /\ (forall e, In e (edges fs') <-> In e (edges fs) \/ e = (u, f))
  /\ (NoDup (edges fs) -> NoDup (edges fs')).

(** The trigger body for an accepted request between [A] and [B]. *)
Definition adds_both (A B : uuid) (fs fs' : list Friendship.t) : Prop :=
  (exists more, fs' = fs ++ more)
  /\ (forall e, In e (edges fs') <->
                In e (edges fs) \/ e = (A, B) \/ e = (B, A))
  /\ (NoDup (edges fs) -> NoDup (edges fs')).

(** The directory lookup of [e] finds the one profile [pB]. *)
Definition resolves (e : string) (pB : Profile.t) (d : db) : Prop :=
  single (filter (fun p => String.eqb (Profile.email p) e) (profiles d))
  = Some pB.

(** " hi" followed by a no-break space and a line feed. *)
Definition padded_hi : jsstring := [32; 104; 105; 160; 10]%N.

Definition friend_bob : Profile.t := profile_of bob "bob@x.com".

(** *** Vocabulary of the further properties *)

Definition pairs (rs : list FriendRequest.t) : list (uuid * uuid) :=
  map (fun q => (FriendRequest.sender_id q, FriendRequest.receiver_id q)) rs.

(** Both keys [REFERENCES public.profiles(id)]. *)
Definition references (ps : list Profile.t) (a b : uuid) : Prop :=
  profile_exists ps a = true /\ profile_exists ps b = true.

(** The constraints the migration declares: the primary keys, the two
    UNIQUE pairs and the foreign keys into [profiles]. *)
Definition constraints (d : db) : Prop :=
  NoDup (map Profile.id (profiles d))
  /\ NoDup (map FriendRequest.id (friend_requests d))
  /\ NoDup (pairs (friend_requests d))
  /\ NoDup (map Friendship.id (friendships d))
  /\ NoDup (edges (friendships d))
  /\ NoDup (map Message.id (messages d))
  /\ Forall (fun q => references (profiles d) (FriendRequest.sender_id q)
                        (FriendRequest.receiver_id q)) (friend_requests d)
  /\ Forall (fun e => references (profiles d) (Friendship.user_id e)
                        (Friendship.friend_id e)) (friendships d)
  /\ Forall (fun m => references (profiles d) (Message.sender_id m)
                        (Message.receiver_id m)) (messages d).

(** One [INSERT INTO friendships ... ON CONFLICT DO NOTHING] that went
    through: nothing when the edge was there, else one new row. *)
Definition adds_row (ps : list Profile.t) (u f : uuid)
    (fs fs' : list Friendship.t) : Prop :=
  (fs' = fs /\ In (u, f) (edges fs))
  \/ exists row,
       fs' = fs ++ [row]
       /\ Friendship.user_id row = u /\ Friendship.friend_id row = f
       /\ ~ In (u, f) (edges fs)
       /\ ~ In (Friendship.id row) (map Friendship.id fs)
       /\ references ps u f.

(** The friendships table across statements: it changes only by the trigger
    inserting, for some stored request, the edge and its reverse. *)
Inductive grows (ps : list Profile.t) (rs : list FriendRequest.t)
    : list Friendship.t -> list Friendship.t -> Prop :=
| grows_refl fs : grows ps rs fs fs
| grows_pair q fs fs1 fs2 fs3 :
    In q rs ->
    adds_row ps (FriendRequest.sender_id q) (FriendRequest.receiver_id q) fs fs1 ->
    adds_row ps (FriendRequest.receiver_id q) (FriendRequest.sender_id q) fs1 fs2 ->
    grows ps rs fs2 fs3 ->
    grows ps rs fs fs3.

Definition symmetric (fs : list Friendship.t) : Prop :=
  forall u f, In (u, f) (edges fs) -> In (f, u) (edges fs).

(** Every edge joins the two parties of some stored request. *)
Definition backed (rs : list FriendRequest.t) (fs : list Friendship.t) : Prop :=
  forall u f, In (u, f) (edges fs) ->
    exists q, In q rs
      /\ same_pair (FriendRequest.sender_id q) (FriendRequest.receiver_id q) u f.

(** One stored request before and after operations run on behalf of
    [actors]: the same row, its status changed only if the receiver is among
    the actors. *)
Definition request_step_by (actors : list uuid) (q q' : FriendRequest.t)
    : Prop :=
  FriendRequest.id q' = FriendRequest.id q
  /\ FriendRequest.sender_id q' = FriendRequest.sender_id q
  /\ FriendRequest.receiver_id q' = FriendRequest.receiver_id q
  /\ FriendRequest.created_at q' = FriendRequest.created_at q
  /\ (FriendRequest.status q' <> FriendRequest.status q ->
      In (FriendRequest.receiver_id q) actors).

(** The requests table before and after: old rows in place, new rows after
    them, each sent by an actor to somebody else. *)
Definition requests_evolve (actors : list uuid)
    (rs rs' : list FriendRequest.t) : Prop :=
  exists kept more,
    rs' = kept ++ more
    /\ Forall2 (request_step_by actors) rs kept
    /\ Forall (fun q => In (FriendRequest.sender_id q) actors
                        /\ FriendRequest.sender_id q
                           <> FriendRequest.receiver_id q) more.

(** A profile row before and after operations run on behalf of [actors]. *)
Definition kept_by (actors : list uuid) (p p' : Profile.t) : Prop :=
  Profile.id p' = Profile.id p
  /\ Profile.email p' = Profile.email p
  /\ Profile.display_name p' = Profile.display_name p
  /\ Profile.avatar_url p' = Profile.avatar_url p
  /\ Profile.created_at p' = Profile.created_at p
  /\ (~ In (Profile.id p) actors -> p' = p).

(** The writing statements an operation may send at time [now]; the channel
    handler and the teardown send none. *)
Definition sends (now : timestamp) (o : op) (s : stmt) : Prop :=
  match o, s with
  | op_sendFriendRequest u _, insert_friend_request a b st =>
      a = u /\ b <> u /\ st = pending
  | op_acceptRequest _ rid, update_friend_request st r =>
      st = accepted /\ r = rid
  | op_rejectRequest _ rid, update_friend_request st r =>
      st = rejected /\ r = rid
  | op_loadMessages _ _ _ _, update_messages_read_in ids => ids <> []
  | op_sendMessage u (Some f) c, insert_message a b text =>
      a = u /\ b = Profile.id f
      /\ text = trim (ChatArea.newMessage c) /\ text <> []
  | op_updateStatus u, update_profile st seen i =>
      st = "online"%string /\ seen = now /\ i = u
  | _, _ => False
  end.

(** Example: a tie order (by id). *)
Definition oldest_first : tie_order :=
  fun m x => Message.id m <=? Message.id x.

(** [m'] is [m] with the read flag set. *)
Definition read_copy (m m' : Message.t) : Prop :=
  Message.id m' = Message.id m
  /\ Message.sender_id m' = Message.sender_id m
  /\ Message.receiver_id m' = Message.receiver_id m
  /\ Message.content m' = Message.content m
  /\ Message.created_at m' = Message.created_at m
  /\ Message.read m' = true.

(** Example: alice asks bob, bob accepts, alice writes, bob reads. *)
Definition profile_alice : Profile.t := profile_of alice "alice@x.com".

Definition day : list (timestamp * op) :=
  [(11%Z, op_sendFriendRequest alice (Sidebar.mk "bob@x.com" false));
   (13%Z, op_acceptRequest bob 1);
   (20%Z, op_sendMessage alice (Some friend_bob) (ChatArea.mk [] padded_hi false));
   (21%Z, op_loadMessages oldest_first bob profile_alice idle)].

(** Example: a new user dave, and a profile that is not stored. *)
Definition dave : auth_user := mk_auth_user 4 (Some "dave@x.com"%string) None.


(** ** The message filter *)

Lemma same_pairb_spec a b m :
  same_pairb a b m = true <->
  same_pair (Message.sender_id m) (Message.receiver_id m) a b.
Proof.
  unfold same_pairb, same_pair.
  rewrite orb_true_iff, !andb_true_iff, !Nat.eqb_eq. tauto.
Qed.

Lemma matches_conversation a b m :
  matches (ChatArea.conversation a b) m = same_pairb a b m.
Proof. reflexivity. Qed.

Lemma conversation_visible a b m :
  same_pairb a b m = true -> can_view_message a m = true.
Proof.
  rewrite same_pairb_spec. unfold same_pair, can_view_message.
  rewrite orb_true_iff, !Nat.eqb_eq. intuition congruence.
Qed.

Lemma view_and_conversation a b m :
  can_view_message a m && matches (ChatArea.conversation a b) m
  = same_pairb a b m.
Proof.
  rewrite matches_conversation.
  destruct (same_pairb a b m) eqn:E.
  - now rewrite (conversation_visible _ _ _ E).
  - apply andb_false_r.
Qed.

(** C7: the filter string the [ChatArea] channel is subscribed with names no
    column of [messages]: the text before its first "=" (before the first
    occurrence of any character, for that matter) is not a column name, so
    the string is not a [column=operator.value] comparison and carries no
    predicate on the sender/receiver pair for the change feed to apply.  The
    sibling channels of [pages/Chat.tsx] are subscribed with
    [user_id=eq.<id>] and [receiver_id=eq.<id>], whose column is read off
    as it should. *)
Theorem C7_channel_filter_names_no_column
    (show : uuid -> string) (userA userB : uuid) (delim : ascii) :
  ~ In (filter_column (ChatArea.channel_filter show userA userB)) message_columns
  /\ ~ In (split_part_1 delim (ChatArea.channel_filter show userA userB))
         message_columns
  /\ filter_column (Chat.friendships_filter show userA) = "user_id"%string
  /\ filter_column (Chat.requests_filter show userA) = "receiver_id"%string.
Proof.
  assert (G : forall c,
            ~ In (split_part_1 c (ChatArea.channel_filter show userA userB))
                message_columns).
  { intros c. unfold ChatArea.channel_filter. cbn [String.append split_part_1].
    destruct (Ascii.eqb "o" c); simpl; intuition discriminate. }
  split; [apply G|]. split; [apply G|]. split; reflexivity.
Qed.

(** ** Trimming *)

Lemma trimStart_split (s : jsstring) :
  exists l, s = l ++ trimStart s /\ all_white l.
Proof.
  induction s as [|c s [l [E W]]]; simpl.
  - exists []. split; [reflexivity | constructor].
  - destruct (is_white_space c) eqn:Hc.
    + exists (c :: l). split.
      * simpl. now rewrite <- E.
      * now constructor.
    + exists []. split; [reflexivity | constructor].
Qed.

Lemma trimStart_clean (s : jsstring) : starts_clean (trimStart s).
Proof.
  induction s as [|c s IH]; simpl; [exact I|].
  destruct (is_white_space c) eqn:Hc; [exact IH | exact Hc].
Qed.

Lemma all_white_rev (l : jsstring) : all_white l -> all_white (rev l).
Proof.
  unfold all_white. rewrite !Forall_forall.
  intros H c Hc. apply H. now apply in_rev.
Qed.

Lemma trimEnd_split (s : jsstring) :
  exists r, s = trimEnd s ++ r /\ all_white r.
Proof.
  destruct (trimStart_split (rev s)) as [l [E W]].
  exists (rev l). split; [|now apply all_white_rev].
  unfold trimEnd. rewrite <- rev_app_distr, <- E. symmetry. apply rev_involutive.
Qed.

Lemma prefix_clean (p r : jsstring) : starts_clean (p ++ r) -> starts_clean p.
Proof. destruct p; simpl; auto. Qed.

Lemma trim_stripped (s : jsstring) : stripped s (trim s).
Proof.
  destruct (trimStart_split s) as [l [El Wl]].
  destruct (trimEnd_split (trimStart s)) as [r [Er Wr]].
  exists l, r. unfold trim. repeat split; auto.
  - now rewrite <- Er.
  - apply prefix_clean with (r := r). rewrite <- Er. apply trimStart_clean.
  - unfold trimEnd. rewrite rev_involutive. apply trimStart_clean.
Qed.

(** ** Statements and the journal *)

Lemma gen_random_uuid_fresh (used : list uuid) : ~ In (gen_random_uuid used) used.
Proof.
  unfold gen_random_uuid. intros H.
  assert (L : list_max used <= list_max used) by lia.
  apply list_max_le in L. rewrite Forall_forall in L.
  apply L in H. lia.
Qed.

Lemma run_stmt_journal now auth s d d' :
  run_stmt now auth s d = Commit d' -> journal d' = journal d.
Proof.
  destruct s; simpl.
  - destruct (negb _); [discriminate|]. destruct (request_exists _ _ _);
      [discriminate|]. destruct (negb _); [discriminate|].
    intros H; inversion H; reflexivity.
  - destruct (update_requests _ _ _ _ _ _ _); simpl; [|discriminate].
    intros H; inversion H; reflexivity.
  - destruct (negb _); [discriminate|]. destruct (negb _); [discriminate|].
    destruct (negb _); [discriminate|].
    intros H; inversion H; reflexivity.
  - intros H; inversion H; reflexivity.
  - intros H; inversion H; reflexivity.
  - intros H; inversion H; reflexivity.
Qed.

Lemma exec_journal now auth s d :
  journal (snd (exec now auth s d)) = journal d ++ [mk_entry now auth s].
Proof.
  unfold exec. destruct (run_stmt now auth s d) eqn:E; simpl; [|reflexivity].
  now rewrite (run_stmt_journal _ _ _ _ E).
Qed.

Lemma app_one_neq {A : Type} (l : list A) (x : A) : l <> l ++ [x].
Proof.
  intros H. apply (f_equal (@List.length A)) in H.
  rewrite length_app in H. simpl in H. lia.
Qed.

(** ** Sending a message *)

(** C8 (as amended): with a friend selected and no send in flight,
    [sendMessage] never surfaces an [EmptyContent] error: when the draft is
    blank after trimming it returns silently, sending nothing and leaving the
    component and the datastore as they were.  Otherwise it sends exactly one
    insert carrying the trimmed draft: if the text can be stored as TEXT and
    both accounts exist, exactly one unread Message row is inserted under a
    new id, from the current user to the friend, nothing is toasted and the
    draft is cleared; if not, the datastore's error is toasted, no row is
    inserted and the draft is kept.  No id is handed back to the caller. *)
Theorem C8_sendMessage_blank_or_one_row
    (now : timestamp) (currentUserId : uuid) (friend : Profile.t)
    (s : ChatArea.state) (d : db) :
  ChatArea.sending s = false ->
  let text := trim (ChatArea.newMessage s) in
  let out := ChatArea.sendMessage now currentUserId (Some friend) s d in
  (text = [] -> out = ([], s, d))
  /\ (text <> [] ->
      journal (snd out)
        = journal d ++ [mk_entry now currentUserId
                          (insert_message currentUserId (Profile.id friend) text)]
      /\ profiles (snd out) = profiles d
      /\ friend_requests (snd out) = friend_requests d
      /\ friendships (snd out) = friendships d
      /\ ChatArea.messages (snd (fst out)) = ChatArea.messages s
      /\ ChatArea.sending (snd (fst out)) = false
      /\ if storable_text text
            && profile_exists (profiles d) currentUserId
            && profile_exists (profiles d) (Profile.id friend)
         then
           fst (fst out) = []
           /\ ChatArea.newMessage (snd (fst out)) = []
           /\ exists row,
                messages (snd out) = messages d ++ [row]
                /\ ~ In (Message.id row) (map Message.id (messages d))
                /\ Message.sender_id row = currentUserId
                /\ Message.receiver_id row = Profile.id friend
                /\ Message.content row = text
                /\ Message.read row = false
                /\ Message.created_at row = now
         else
           (exists e, fst (fst out) = [toast_error (message e)])
           /\ ChatArea.newMessage (snd (fst out)) = ChatArea.newMessage s
           /\ messages (snd out) = messages d).
Proof.
  intros Hs text out. subst out text. unfold ChatArea.sendMessage.
  rewrite Hs, orb_false_r.
  destruct (trim (ChatArea.newMessage s)) as [|c t] eqn:Et; cbn [falsy].
  - split; [reflexivity | congruence].
  - split; [discriminate|]. intros _.
    set (text := c :: t). unfold exec, run_stmt.
    rewrite Nat.eqb_refl. cbn [negb].
    destruct (storable_text text); cbn [negb andb];
      [|repeat split; eexists; reflexivity].
    destruct (profile_exists (profiles d) currentUserId
              && profile_exists (profiles d) (Profile.id friend));
      cbn [negb fst snd log journal profiles friend_requests friendships
           messages ChatArea.messages ChatArea.sending ChatArea.newMessage].
    + repeat split. eexists. split; [reflexivity|]. cbn.
      repeat split. apply gen_random_uuid_fresh.
    + repeat split. eexists; reflexivity.
Qed.

(** C10: whenever [sendMessage] inserts a Message row, the stored content is
    [newMessage.trim()]: the draft without its leading and trailing white
    space, not the raw draft. *)
Theorem C10_stored_content_is_trimmed
    (now : timestamp) (currentUserId : uuid) (friend : option Profile.t)
    (s : ChatArea.state) (d : db) (row : Message.t) :
  messages (snd (ChatArea.sendMessage now currentUserId friend s d))
    = messages d ++ [row] ->
  Message.content row = trim (ChatArea.newMessage s)
  /\ stripped (ChatArea.newMessage s) (Message.content row).
Proof.
  intros H.
  assert (E : Message.content row = trim (ChatArea.newMessage s)).
  { revert H. unfold ChatArea.sendMessage.
    destruct friend as [f|]; [|intros H; now apply app_one_neq in H].
    destruct (falsy _ || _); [intros H; now apply app_one_neq in H|].
    unfold exec, run_stmt.
    destruct (negb (storable_text _)); [intros H; now apply app_one_neq in H|].
    destruct (negb (currentUserId =? currentUserId));
      [intros H; now apply app_one_neq in H|].
    destruct (negb _); [intros H; now apply app_one_neq in H|].
    simpl. intros H. apply app_inv_head in H. inversion H. reflexivity. }
  split; [exact E|]. rewrite E. apply trim_stripped.
Qed.

(** ** The live handler *)

Lemma count_id_app i l1 l2 : count_id i (l1 ++ l2) = count_id i l1 + count_id i l2.
Proof. unfold count_id. now rewrite filter_app, length_app. Qed.

Lemma on_insert_messages now u ev s d :
  ChatArea.messages (fst (ChatArea.on_insert now u ev s d))
  = ChatArea.messages s ++ [ev].
Proof.
  unfold ChatArea.on_insert.
  destruct (Message.receiver_id ev =? u); reflexivity.
Qed.

Lemma deliver_all_messages now u events : forall s d,
  ChatArea.messages (fst (deliver_all now u events s d))
  = ChatArea.messages s ++ events.
Proof.
  induction events as [|ev rest IH]; intros s d; simpl.
  - now rewrite app_nil_r.
  - destruct (ChatArea.on_insert now u ev s d) as [s' d'] eqn:E.
    rewrite IH.
    assert (M := on_insert_messages now u ev s d). rewrite E in M. simpl in M.
    rewrite M, <- app_assoc. reflexivity.
Qed.

Lemma sendMessage_messages now u friend s d :
  ChatArea.messages (snd (fst (ChatArea.sendMessage now u friend s d)))
  = ChatArea.messages s.
Proof.
  unfold ChatArea.sendMessage. destruct friend; [|reflexivity].
  destruct (falsy _ || _); [reflexivity|].
  destruct (exec _ _ _ _) as [[|e] d']; reflexivity.
Qed.

(** C5 (counterexample): the same message delivered twice on the channel is
    shown twice. *)
Lemma C5_redelivery_duplicates :
  count_id (Message.id msg_hi)
    (ChatArea.messages (fst (deliver_all 21%Z bob [msg_hi; msg_hi] idle db_hi)))
  = 2.
Proof. reflexivity. Qed.

(** C5 (as amended): the handler appends every delivered event, so the local
    sequence gains one entry with id(M) per delivery of M, and [sendMessage]
    adds none of its own: a message not yet present and delivered once (the
    self-echo of a send included) is present exactly once, a redelivered one
    once per delivery. *)
Theorem C5_one_entry_per_delivery
    (now : timestamp) (currentUserId : uuid) (events : list Message.t)
    (s : ChatArea.state) (d : db) (i : uuid) :
  count_id i (ChatArea.messages (fst (deliver_all now currentUserId events s d)))
  = count_id i (ChatArea.messages s) + count_id i events
  /\ forall now' friend d',
       ChatArea.messages
         (snd (fst (ChatArea.sendMessage now' currentUserId friend s d')))
       = ChatArea.messages s.
Proof.
  split.
  - now rewrite deliver_all_messages, count_id_app.
  - intros. apply sendMessage_messages.
Qed.

(** ** Loading a conversation *)

Lemma insert_by_created_at_perm tie m l :
  Permutation (insert_by_created_at tie m l) (m :: l).
Proof.
  induction l as [|x l IH]; simpl; [reflexivity|].
  destruct (_ || _); [reflexivity|].
  rewrite IH. apply perm_swap.
Qed.

Lemma order_by_created_at_perm tie l : Permutation (order_by_created_at tie l) l.
Proof.
  induction l as [|x l IH]; simpl; [constructor|].
  rewrite insert_by_created_at_perm. now constructor.
Qed.

Lemma insert_by_created_at_sorted tie m l :
  StronglySorted created_le l ->
  StronglySorted created_le (insert_by_created_at tie m l).
Proof.
  induction 1 as [|x l Hs IH Hx]; simpl.
  - repeat constructor.
  - destruct ((Message.created_at m <? Message.created_at x)%Z
              || (Message.created_at m =? Message.created_at x)%Z && tie m x)
      eqn:E.
    + assert (L : (Message.created_at m <= Message.created_at x)%Z).
      { apply orb_true_iff in E. destruct E as [E|E].
        - apply Z.ltb_lt in E. lia.
        - apply andb_true_iff in E. destruct E as [E _].
          apply Z.eqb_eq in E. lia. }
      constructor; [now constructor|].
      constructor; [exact L|].
      eapply Forall_impl; [|exact Hx]. unfold created_le. intros; lia.
    + assert (L : (Message.created_at x <= Message.created_at m)%Z).
      { apply orb_false_iff in E. destruct E as [E _].
        apply Z.ltb_ge in E. exact E. }
      constructor; [exact IH|].
      eapply Permutation_Forall;
        [symmetry; apply insert_by_created_at_perm|].
      constructor; [exact L | exact Hx].
Qed.

Lemma order_by_created_at_sorted tie l :
  StronglySorted created_le (order_by_created_at tie l).
Proof.
  induction l as [|x l IH]; simpl; [constructor|].
  now apply insert_by_created_at_sorted.
Qed.

Lemma set_read_of_read m : Message.read m = true -> set_read m = m.
Proof. destruct m; simpl; intros ->; reflexivity. Qed.

Lemma update_read_changes auth sel ms :
  Forall2 (fun m m' => m' = m \/ (m' = set_read m /\ Message.receiver_id m = auth))
    ms (update_read auth sel ms).
Proof.
  induction ms as [|m ms IH]; simpl; constructor; [|exact IH].
  destruct (sel m && can_update_message auth m) eqn:E; [|now left].
  right. split; [reflexivity|].
  apply andb_true_iff in E. destruct E as [_ E].
  unfold can_update_message in E. apply Nat.eqb_eq in E. congruence.
Qed.

Lemma update_read_marks auth sel ms m :
  In m ms -> Message.receiver_id m = auth ->
  (Message.read m = false -> sel m = true) ->
  In (set_read m) (update_read auth sel ms).
Proof.
  intros Hin Hr Hsel. unfold update_read.
  apply in_map_iff. exists m. split; [|exact Hin].
  destruct (Message.read m) eqn:R.
  - rewrite (set_read_of_read _ R). now destruct (_ && _).
  - rewrite (Hsel eq_refl). unfold can_update_message.
    rewrite Hr, Nat.eqb_refl. reflexivity.
Qed.

Lemma Forall2_same {A : Type} (R : A -> A -> Prop) (l : list A) :
  (forall x, R x x) -> Forall2 R l l.
Proof. intros H. induction l; constructor; auto. Qed.

Lemma select_conversation tie a b d :
  select_messages tie a (ChatArea.conversation a b) d
  = order_by_created_at tie (filter (same_pairb a b) (messages d)).
Proof.
  unfold select_messages. f_equal. apply filter_ext.
  intros m. apply view_and_conversation.
Qed.

Lemma read_copy_set_read m : read_copy m (set_read m).
Proof. unfold read_copy. simpl. tauto. Qed.

Lemma read_copy_of_read m : Message.read m = true -> read_copy m m.
Proof. unfold read_copy. tauto. Qed.

(** C3 (counterexample): bob loads his conversation with alice, in which
    "hi" is waiting unread: the message he gets back, addressed to him,
    has [read = false]. *)
Lemma C3_returned_copy_is_unread :
  exists m,
    In m (ChatArea.messages
            (fst (ChatArea.loadMessages oldest_first 21%Z bob profile_alice
                    idle db_hi)))
    /\ Message.receiver_id m = bob
    /\ Message.read m = false.
Proof. exists msg_hi. repeat split. simpl. now left. Qed.

(** C3 (as amended): [loadMessages] for the pair (A, B) shows exactly the
    stored messages whose unordered sender/receiver pair is {A, B}, as they
    were stored when fetched, in ascending order of [created_at] (whatever
    the order of ties); when it returns, every shown message addressed to A
    is stored in the datastore with [read = true]; this takes at most one
    statement, an [update ... in (ids)] sent as A, and the only rows it
    changes are unread messages addressed to A, whose read flag it sets. *)
Theorem C3_loadMessages
    (tie : tie_order) (now : timestamp) (A : uuid) (friend : Profile.t)
    (s : ChatArea.state) (d : db) :
  let out := ChatArea.loadMessages tie now A friend s d in
  let data := ChatArea.messages (fst out) in
  Permutation data (filter (same_pairb A (Profile.id friend)) (messages d))
  /\ StronglySorted created_le data
  /\ (forall m, In m data -> Message.receiver_id m = A ->
        exists m', In m' (messages (snd out)) /\ read_copy m m')
  /\ Forall2 (fun m m' =>
                m' = m
                \/ (Message.receiver_id m = A /\ Message.read m = false
                    /\ read_copy m m'))
       (messages d) (messages (snd out))
  /\ (exists w, journal (snd out) = journal d ++ w
                /\ List.length w <= 1
                /\ Forall (fun e => exists ids,
                             e = mk_entry now A (update_messages_read_in ids)) w)
  /\ profiles (snd out) = profiles d
  /\ friend_requests (snd out) = friend_requests d
  /\ friendships (snd out) = friendships d.
Proof.
  intros out data.
  assert (Hdata : data = order_by_created_at tie
                           (filter (same_pairb A (Profile.id friend)) (messages d))).
  { subst data out. unfold ChatArea.loadMessages.
    rewrite select_conversation. destruct (0 <? _); reflexivity. }
  assert (Hin : forall m, In m data -> In m (messages d)).
  { intros m Hm. rewrite Hdata in Hm.
    apply (Permutation_in _ (order_by_created_at_perm _ _)) in Hm.
    now apply filter_In in Hm. }
  split; [rewrite Hdata; apply order_by_created_at_perm|].
  split; [rewrite Hdata; apply order_by_created_at_sorted|].
  subst out. unfold ChatArea.loadMessages in *.
  rewrite select_conversation in *. fold data in Hdata. rewrite <- Hdata.
  set (unreadIds := map Message.id
         (filter (fun m => (Message.receiver_id m =? A) && negb (Message.read m))
            data)).
  assert (Hun : forall m, In m data -> Message.receiver_id m = A ->
                  Message.read m = false -> In (Message.id m) unreadIds).
  { intros m Hm Hr Hf. apply in_map. apply filter_In. split; [exact Hm|].
    rewrite Hr, Nat.eqb_refl, Hf. reflexivity. }
  destruct (0 <? List.length unreadIds) eqn:E; simpl.
  - split.
    { intros m Hm Hr. exists (set_read m).
      split; [|apply read_copy_set_read].
      apply update_read_marks; auto.
      intros Hf. apply existsb_exists. exists (Message.id m).
      split; [now apply Hun | apply Nat.eqb_refl]. }
    split.
    { eapply Forall2_impl; [|apply update_read_changes].
      intros m m' [-> | [-> Hr]]; [now left|].
      destruct (Message.read m) eqn:R; [left; now apply set_read_of_read|].
      right. split; [exact Hr|]. split; [reflexivity | apply read_copy_set_read]. }
    split; [|repeat split].
    exists [mk_entry now A (update_messages_read_in unreadIds)].
    repeat split; [simpl; lia|]. constructor; [now exists unreadIds|constructor].
  - apply Nat.ltb_ge in E.
    assert (Hnil : unreadIds = []) by (destruct unreadIds; [reflexivity|simpl in E; lia]).
    split.
    { intros m Hm Hr. destruct (Message.read m) eqn:R.
      - exists m. split; [now apply Hin | now apply read_copy_of_read].
      - specialize (Hun m Hm Hr R). rewrite Hnil in Hun. destruct Hun. }
    split; [apply Forall2_same; now left|].
    split; [|repeat split].
    exists []. rewrite app_nil_r. repeat split; [simpl; lia | constructor].
Qed.

(** ** The read flag *)

Lemma read_step_by_refl actors m : read_step_by actors m m.
Proof. unfold read_step_by. intuition congruence. Qed.

Lemma read_step_by_set_read m : read_step_by [Message.receiver_id m] m (set_read m).
Proof. unfold read_step_by. simpl. intuition. Qed.

Lemma read_step_by_trans as1 as2 m1 m2 m3 :
  read_step_by as1 m1 m2 -> read_step_by as2 m2 m3 ->
  read_step_by (as1 ++ as2) m1 m3.
Proof.
  unfold read_step_by.
  intros (I1 & S1 & R1 & C1 & T1 & M1 & W1) (I2 & S2 & R2 & C2 & T2 & M2 & W2).
  repeat split; try congruence.
  - auto.
  - intros F T. apply in_or_app. destruct (Message.read m2) eqn:E.
    + left. auto.
    + right. rewrite <- R1. auto.
Qed.

Lemma evolves_refl actors ms : evolves actors ms ms.
Proof.
  exists ms, []. split; [now rewrite app_nil_r|].
  apply Forall2_same. apply read_step_by_refl.
Qed.

Lemma evolves_append actors ms more : evolves actors ms (ms ++ more).
Proof.
  exists ms, more. split; [reflexivity|].
  apply Forall2_same. apply read_step_by_refl.
Qed.

Lemma Forall2_compose {A : Type} (R S T : A -> A -> Prop) :
  (forall x y z, R x y -> S y z -> T x z) ->
  forall l1 l2 l3, Forall2 R l1 l2 -> Forall2 S l2 l3 -> Forall2 T l1 l3.
Proof.
  intros H l1 l2 l3 H12. revert l3.
  induction H12; intros l3 H23; inversion H23; subst; constructor; eauto.
Qed.

Lemma evolves_trans as1 as2 ms1 ms2 ms3 :
  evolves as1 ms1 ms2 -> evolves as2 ms2 ms3 -> evolves (as1 ++ as2) ms1 ms3.
Proof.
  intros (k1 & more1 & E1 & F1) (k2 & more2 & E2 & F2). subst ms2.
  apply Forall2_app_inv_l in F2. destruct F2 as (k2a & k2b & Fa & Fb & ->).
  exists k2a, (k2b ++ more2). split; [now rewrite E2, app_assoc|].
  eapply Forall2_compose; [|exact F1|exact Fa].
  intros x y z. apply read_step_by_trans.
Qed.

Lemma update_read_evolves auth sel ms :
  evolves [auth] ms (update_read auth sel ms).
Proof.
  exists (update_read auth sel ms), []. split; [now rewrite app_nil_r|].
  eapply Forall2_impl; [|apply update_read_changes].
  intros m m' [->|[-> <-]].
  - apply read_step_by_refl.
  - apply read_step_by_set_read.
Qed.

Lemma run_stmt_messages now auth s d d' :
  run_stmt now auth s d = Commit d' ->
  evolves [auth] (messages d) (messages d').
Proof.
  destruct s; simpl.
  - destruct (negb _); [discriminate|]. destruct (request_exists _ _ _);
      [discriminate|]. destruct (negb _); [discriminate|].
    intros H; inversion H; simpl. apply evolves_refl.
  - destruct (update_requests _ _ _ _ _ _ _); simpl; [|discriminate].
    intros H; inversion H; simpl. apply evolves_refl.
  - destruct (negb _); [discriminate|]. destruct (negb _); [discriminate|].
    destruct (negb _); [discriminate|].
    intros H; inversion H; simpl. apply evolves_append.
  - intros H; inversion H; simpl. apply update_read_evolves.
  - intros H; inversion H; simpl. apply update_read_evolves.
  - intros H; inversion H; simpl. apply evolves_refl.
Qed.

Lemma exec_messages now auth s d :
  evolves [auth] (messages d) (messages (snd (exec now auth s d))).
Proof.
  unfold exec. destruct (run_stmt now auth s d) eqn:E; simpl.
  - now apply run_stmt_messages in E.
  - apply evolves_refl.
Qed.

Lemma step_messages now o d :
  evolves [actor o] (messages d) (messages (step now o d)).
Proof.
  destruct o; cbn [step actor].
  - unfold Sidebar.sendFriendRequest.
    destruct (String.eqb _ _); [apply evolves_refl|].
    destruct (single _) as [p|]; [|apply evolves_refl].
    destruct (Profile.id p =? user); [apply evolves_refl|].
    destruct (exec _ _ _ _) as [r d'] eqn:E.
    assert (M := exec_messages now user
                   (insert_friend_request user (Profile.id p) pending) d).
    rewrite E in M. simpl in M.
    destruct r as [|e]; [exact M|]. destruct (String.eqb _ _); exact M.
  - unfold Sidebar.acceptRequest.
    destruct (exec _ _ _ _) as [r d'] eqn:E.
    assert (M := exec_messages now user (update_friend_request accepted requestId) d).
    rewrite E in M. destruct r; exact M.
  - unfold Sidebar.rejectRequest.
    destruct (exec _ _ _ _) as [r d'] eqn:E.
    assert (M := exec_messages now user (update_friend_request rejected requestId) d).
    rewrite E in M. destruct r; exact M.
  - unfold ChatArea.loadMessages.
    destruct (0 <? _); cbn [snd]; [apply exec_messages | apply evolves_refl].
  - unfold ChatArea.on_insert, dropped.
    destruct (_ =? _); cbn [snd]; apply evolves_refl.
  - unfold ChatArea.sendMessage.
    destruct friend as [f|]; [|apply evolves_refl].
    destruct (falsy _ || _); [apply evolves_refl|].
    destruct (exec _ _ _ _) as [r d'] eqn:E.
    assert (M := exec_messages now user
                   (insert_message user (Profile.id f) (trim (ChatArea.newMessage s))) d).
    rewrite E in M. destruct r; exact M.
  - unfold Chat.updateStatus. apply exec_messages.
  - unfold Chat.unmount, dropped. cbn [snd]. apply evolves_refl.
Qed.

(** C6: along every run of the core's operations each stored message keeps
    its identity, a read flag that is [true] stays [true], and a flag that
    went from [false] to [true] was set by an operation running on behalf of
    the message's receiver; for a single operation: it marks read only
    messages addressed to its own user. *)
Theorem C6_read_flag_monotone_by_receiver
    (ops : list (timestamp * op)) (d : db) :
  evolves (map (fun x => actor (snd x)) ops) (messages d) (messages (run ops d)).
Proof.
  revert d. induction ops as [|[now o] rest IH]; intros d; simpl.
  - apply evolves_refl.
  - change (actor o :: map (fun x => actor (snd x)) rest)
      with ([actor o] ++ map (fun x => actor (snd x)) rest).
    eapply evolves_trans; [apply step_messages | apply IH].
Qed.

(** ** Presence *)

Lemma kept_refl u p : kept u p p.
Proof. unfold kept. intuition. Qed.

Lemma kept_presence_of u st seen p1 p2 p3 :
  kept u p1 p2 -> presence_of u st seen p2 p3 -> presence_of u st seen p1 p3.
Proof.
  unfold presence_of, kept.
  intros (I1 & E1 & D1 & A1 & C1 & K1) ((I2 & E2 & D2 & A2 & C2 & K2) & P).
  repeat split; try congruence.
  - intros N. rewrite K2; [auto | congruence].
  - apply P. congruence.
  - apply P. congruence.
Qed.

Lemma presence_of_kept u st seen p p' : presence_of u st seen p p' -> kept u p p'.
Proof. now intros [K _]. Qed.

Lemma kept_trans u p1 p2 p3 : kept u p1 p2 -> kept u p2 p3 -> kept u p1 p3.
Proof.
  unfold kept.
  intros (I1 & E1 & D1 & A1 & C1 & K1) (I2 & E2 & D2 & A2 & C2 & K2).
  repeat split; try congruence.
  intros N. rewrite K2; [auto | congruence].
Qed.

Lemma update_profiles_presence now u st seen ps :
  Forall2 (presence_of u st seen) ps (update_profiles now u st seen u ps).
Proof.
  induction ps as [|p ps IH]; simpl; constructor; [|exact IH].
  destruct (Profile.id p =? u) eqn:E; simpl.
  - apply Nat.eqb_eq in E. rewrite <- E, Nat.eqb_refl.
    unfold presence_of, kept; simpl. intuition.
  - apply Nat.eqb_neq in E. unfold presence_of. split; [apply kept_refl|].
    intros; contradiction.
Qed.

Lemma beat_times_S t0 n :
  beat_times t0 (S n) = t0 :: beat_times (t0 + Chat.heartbeat_ms)%Z n.
Proof.
  unfold beat_times, Chat.heartbeat_ms. cbn [seq map]. f_equal; [lia|].
  rewrite <- seq_shift, map_map. apply map_ext. intros k. lia.
Qed.

Lemma updateStatus_spec t u d :
  journal (Chat.updateStatus t u d) = journal d ++ [online_at u t]
  /\ Forall2 (presence_of u "online" t) (profiles d)
       (profiles (Chat.updateStatus t u d))
  /\ friend_requests (Chat.updateStatus t u d) = friend_requests d
  /\ friendships (Chat.updateStatus t u d) = friendships d
  /\ messages (Chat.updateStatus t u d) = messages d.
Proof.
  unfold Chat.updateStatus, exec, run_stmt. simpl.
  repeat split. apply update_profiles_presence.
Qed.

Lemma run_timers_spec until u : forall fuel due d,
  (due + Chat.heartbeat_ms * (Z.of_nat fuel - 1) <= until)%Z ->
  exists d',
    Chat.run_timers fuel until u (Chat.mk (Some due)) d
    = (Chat.mk (Some (due + Chat.heartbeat_ms * Z.of_nat fuel)%Z), d')
    /\ journal d' = journal d ++ map (online_at u) (beat_times due fuel)
    /\ Forall2 (kept u) (profiles d) (profiles d')
    /\ friend_requests d' = friend_requests d
    /\ friendships d' = friendships d
    /\ messages d' = messages d.
Proof.
  induction fuel as [|fuel IH]; intros due d H.
  - exists d. cbn [Chat.run_timers beat_times seq map Z.of_nat].
    rewrite Z.mul_0_r, Z.add_0_r, app_nil_r.
    repeat split. apply Forall2_same, kept_refl.
  - assert (Hb : (0 < Chat.heartbeat_ms)%Z) by reflexivity.
    assert (Hdue : (due <= until)%Z) by nia.
    cbn [Chat.run_timers Chat.interval]. apply Z.leb_le in Hdue. rewrite Hdue.
    unfold Chat.tick. cbn [Chat.interval].
    destruct (IH (due + Chat.heartbeat_ms)%Z (Chat.updateStatus due u d))
      as (d' & E & J & P & R & F & M); [lia|].
    destruct (updateStatus_spec due u d) as (J1 & P1 & R1 & F1 & M1).
    exists d'. rewrite E. split; [f_equal; f_equal; f_equal; lia|].
    rewrite J, J1, R, R1, F, F1, M, M1, beat_times_S, <- app_assoc.
    repeat split.
    eapply Forall2_compose; [|exact P1|exact P].
    intros x y z Hxy Hyz. eapply kept_trans; [|exact Hyz].
    eapply presence_of_kept; exact Hxy.
Qed.

Lemma firings_count t0 t1 :
  (t0 <= t1)%Z ->
  Chat.firings t1 (Chat.mk (Some (t0 + Chat.heartbeat_ms)%Z))
  = Z.to_nat ((t1 - t0) / Chat.heartbeat_ms).
Proof.
  intros H. unfold Chat.firings, Chat.heartbeat_ms. cbn [Chat.interval].
  destruct (t0 + 30000 <=? t1)%Z eqn:E.
  - apply Z.leb_le in E.
    replace (t1 - (t0 + 30000))%Z with ((t1 - t0) + (-1) * 30000)%Z by lia.
    rewrite Z.div_add by lia.
    assert (1 <= (t1 - t0) / 30000)%Z
      by (apply Z.div_le_lower_bound; lia).
    lia.
  - apply Z.leb_gt in E. rewrite Z.div_small by lia. reflexivity.
Qed.

Lemma beats_within t0 t1 :
  (t0 <= t1)%Z ->
  let n := Z.to_nat ((t1 - t0) / Chat.heartbeat_ms) in
  (t0 + Chat.heartbeat_ms * Z.of_nat n <= t1
   < t0 + Chat.heartbeat_ms * Z.of_nat (S n))%Z.
Proof.
  intros H n. subst n. unfold Chat.heartbeat_ms.
  assert (0 <= (t1 - t0) / 30000)%Z by (apply Z.div_pos; lia).
  rewrite Nat2Z.inj_succ, Z2Nat.id by lia.
  pose proof (Z.mul_div_le (t1 - t0) 30000 ltac:(lia)).
  pose proof (Z.mul_succ_div_gt (t1 - t0) 30000 ltac:(lia)).
  lia.
Qed.

Lemma run_timers_presence until u : forall fuel due d base,
  (due + Chat.heartbeat_ms * (Z.of_nat fuel - 1) <= until)%Z ->
  Forall2 (presence_of u "online" (due - Chat.heartbeat_ms)%Z) base (profiles d) ->
  Forall2 (presence_of u "online"
             (due + Chat.heartbeat_ms * Z.of_nat fuel - Chat.heartbeat_ms)%Z)
    base (profiles (snd (Chat.run_timers fuel until u (Chat.mk (Some due)) d))).
Proof.
  induction fuel as [|fuel IH]; intros due d base H P.
  - cbn [Chat.run_timers snd Z.of_nat].
    now replace (due + Chat.heartbeat_ms * 0 - Chat.heartbeat_ms)%Z
      with (due - Chat.heartbeat_ms)%Z by lia.
  - assert (Hb : (0 < Chat.heartbeat_ms)%Z) by reflexivity.
    assert (Hdue : (due <= until)%Z) by nia.
    cbn [Chat.run_timers Chat.interval]. apply Z.leb_le in Hdue. rewrite Hdue.
    unfold Chat.tick. cbn [Chat.interval].
    replace (due + Chat.heartbeat_ms * Z.of_nat (S fuel) - Chat.heartbeat_ms)%Z
      with (due + Chat.heartbeat_ms + Chat.heartbeat_ms * Z.of_nat fuel
            - Chat.heartbeat_ms)%Z by lia.
    apply IH; [lia|].
    replace (due + Chat.heartbeat_ms - Chat.heartbeat_ms)%Z with due by lia.
    destruct (updateStatus_spec due u d) as (_ & P1 & _).
    eapply Forall2_compose; [|exact P|exact P1].
    intros x y z Hxy Hyz. eapply kept_presence_of; [|exact Hyz].
    eapply presence_of_kept; exact Hxy.
Qed.

(** C9 (what the code does): a session of [user_id] mounted at [t0] and torn
    down at [t1] sends, as that user and for that user's own profile row
    only, one [status = online, last_seen = now] write at [t0] and one more
    every 30000 ms (30 s) for as long as the session lives; at teardown it
    clears the timer and sends nothing: the offline write is built and never
    awaited, so the journal ends with the last heartbeat and the user's row
    still says [online], as of that heartbeat. *)
Theorem C9_session_ends_online
    (t0 t1 : timestamp) (user_id : uuid) (d : db) :
  (t0 <= t1)%Z ->
  let n := Z.to_nat ((t1 - t0) / Chat.heartbeat_ms) in
  let out := Chat.session t0 t1 user_id d in
  Chat.heartbeat_ms = (30 * 1000)%Z
  /\ journal (snd out)
     = journal d ++ map (online_at user_id) (beat_times t0 (S n))
  /\ (t0 + Chat.heartbeat_ms * Z.of_nat n <= t1
      < t0 + Chat.heartbeat_ms * Z.of_nat (S n))%Z
  /\ Chat.interval (fst out) = None
  /\ Forall2 (presence_of user_id "online"
                (t0 + Chat.heartbeat_ms * Z.of_nat n)%Z)
       (profiles d) (profiles (snd out))
  /\ friend_requests (snd out) = friend_requests d
  /\ friendships (snd out) = friendships d
  /\ messages (snd out) = messages d.
Proof.
  intros H n out.
  split; [reflexivity|].
  pose proof (@beats_within t0 t1 H) as B. cbv zeta in B. fold n in B.
  destruct (updateStatus_spec t0 user_id d) as (J0 & P0 & R0 & F0 & M0).
  assert (Hn : (t0 + Chat.heartbeat_ms + Chat.heartbeat_ms * (Z.of_nat n - 1)
                <= t1)%Z) by (unfold Chat.heartbeat_ms in *; lia).
  destruct (@run_timers_spec t1 user_id n (t0 + Chat.heartbeat_ms)%Z
              (Chat.updateStatus t0 user_id d) Hn)
    as (d1 & E & J1 & _ & R1 & F1 & M1).
  assert (P1 : Forall2 (presence_of user_id "online"
                          (t0 + Chat.heartbeat_ms * Z.of_nat n)%Z)
                 (profiles d) (profiles d1)).
  { replace d1 with (snd (Chat.run_timers n t1 user_id
                            (Chat.mk (Some (t0 + Chat.heartbeat_ms)%Z))
                            (Chat.updateStatus t0 user_id d)))
      by (now rewrite E).
    replace (t0 + Chat.heartbeat_ms * Z.of_nat n)%Z
      with (t0 + Chat.heartbeat_ms + Chat.heartbeat_ms * Z.of_nat n
            - Chat.heartbeat_ms)%Z by lia.
    apply run_timers_presence; [exact Hn|].
    now replace (t0 + Chat.heartbeat_ms - Chat.heartbeat_ms)%Z with t0 by lia. }
  assert (Eout : out = Chat.unmount t1 (Some user_id)
                         (Chat.mk (Some (t0 + Chat.heartbeat_ms
                                         + Chat.heartbeat_ms * Z.of_nat n)%Z)) d1).
  { subst out. unfold Chat.session, Chat.mount, Chat.advance.
    rewrite (@firings_count t0 t1 H). fold n. rewrite E. reflexivity. }
  rewrite Eout. unfold Chat.unmount, dropped. cbn [fst snd Chat.interval].
  rewrite J1, J0, R1, R0, F1, F0, M1, M0, beat_times_S.
  split; [cbn [map]; now rewrite <- !app_assoc|].
  split; [exact B|]. repeat split. exact P1.
Qed.

(** C9 at a session of alice that lives for 65 seconds: three heartbeats,
    no offline write, and alice is still stored as online. *)
Lemma C9_session_ends_online_witness :
  (0 <= 65000)%Z
  /\ journal (snd (Chat.session 0%Z 65000%Z alice db0))
     = [online_at alice 0%Z; online_at alice 30000%Z; online_at alice 60000%Z]
  /\ map Profile.status
       (filter (fun p => Profile.id p =? alice)
          (profiles (snd (Chat.session 0%Z 65000%Z alice db0))))
     = ["online"%string].
Proof.
  split; [lia|].
  destruct (@C9_session_ends_online 0%Z 65000%Z alice db0 ltac:(lia))
    as (_ & J & _).
  split; [exact J | reflexivity].
Defined.

(** ** Friendship edges *)

Lemma friendship_exists_In fs u f :
  friendship_exists fs u f = true <-> In (u, f) (edges fs).
Proof.
  unfold friendship_exists, edges. rewrite existsb_exists, in_map_iff.
  split.
  - intros (e & He & E). apply andb_true_iff in E. destruct E as [E1 E2].
    apply Nat.eqb_eq in E1, E2. exists e. split; [congruence | exact He].
  - intros (e & E & He). inversion E; subst. exists e.
    split; [exact He | now rewrite !Nat.eqb_refl].
Qed.

Lemma insert_friendship_cases now ps u f fs :
  (exists fs', insert_friendship_on_conflict_do_nothing now ps u f fs = Commit fs'
               /\ adds_edge u f fs fs')
  \/ (insert_friendship_on_conflict_do_nothing now ps u f fs
        = Abort foreign_key_violation
      /\ (profile_exists ps u && profile_exists ps f = false)).
Proof.
  unfold insert_friendship_on_conflict_do_nothing.
  destruct (friendship_exists fs u f) eqn:E.
  - left. exists fs. split; [reflexivity|]. apply friendship_exists_In in E.
    repeat split.
    + exists []. now rewrite app_nil_r.
    + auto.
    + intros [H| ->]; auto.
    + auto.
  - destruct (profile_exists ps u && profile_exists ps f) eqn:P.
    + left. eexists. split; [reflexivity|].
      assert (N : ~ In (u, f) (edges fs)).
      { rewrite <- friendship_exists_In. congruence. }
      repeat split.
      * eexists. reflexivity.
      * unfold edges. rewrite map_app, in_app_iff. simpl. intuition.
      * unfold edges. rewrite map_app, in_app_iff. simpl. intuition.
      * intros ND. unfold edges. rewrite map_app. simpl.
        apply (Permutation_NoDup (Permutation_cons_append _ _)).
        constructor; [exact N | exact ND].
    + right. split; reflexivity.
Qed.

Lemma adds_both_has A B fs fs' :
  adds_both A B fs fs' -> In (A, B) (edges fs') /\ In (B, A) (edges fs').
Proof. intros (_ & H & _). split; apply H; auto. Qed.

Lemma create_friendship_cases now ps NEW fs :
  FriendRequest.status NEW = accepted ->
  (exists fs', create_friendship now ps NEW fs = Commit fs'
               /\ adds_both (FriendRequest.sender_id NEW)
                    (FriendRequest.receiver_id NEW) fs fs')
  \/ ((exists e, create_friendship now ps NEW fs = Abort e)
      /\ (profile_exists ps (FriendRequest.sender_id NEW)
          && profile_exists ps (FriendRequest.receiver_id NEW) = false)).
Proof.
  intros St. unfold create_friendship. rewrite St. simpl req_status_eqb. cbv iota.
  set (A := FriendRequest.sender_id NEW). set (B := FriendRequest.receiver_id NEW).
  destruct (insert_friendship_cases now ps A B fs)
    as [(fs1 & E1 & (M1 & I1 & N1)) | (E1 & P1)]; rewrite E1; simpl.
  - destruct (insert_friendship_cases now ps B A fs1)
      as [(fs2 & E2 & (M2 & I2 & N2)) | (E2 & P2)]; rewrite E2.
    + left. exists fs2. split; [reflexivity|]. repeat split.
      * destruct M1 as [m1 ->]. destruct M2 as [m2 ->].
        exists (m1 ++ m2). now rewrite app_assoc.
      * intros H. apply I2 in H. rewrite I1 in H. tauto.
      * intros H. apply I2. rewrite I1. tauto.
      * auto.
    + right. split; [eexists; reflexivity|]. now rewrite andb_comm.
  - right. split; [eexists; reflexivity | exact P1].
Qed.

(** ** Updating a request *)

Lemma update_requests_miss now auth ps s rid fs : forall rs,
  (forall q, In q rs -> FriendRequest.id q = rid ->
             auth <> FriendRequest.receiver_id q) ->
  update_requests now auth ps s rid rs fs = Commit (rs, fs).
Proof.
  induction rs as [|q rs IH]; intros H; simpl; [reflexivity|].
  assert (E : (FriendRequest.id q =? rid) && can_update_request auth q = false).
  { apply andb_false_iff. destruct (FriendRequest.id q =? rid) eqn:I; [|now left].
    right. apply Nat.eqb_eq in I. apply Nat.eqb_neq.
    apply H; [now left | exact I]. }
  rewrite E, IH; [reflexivity|]. intros q' Hq'. apply H. now right.
Qed.

Lemma update_requests_hit now auth ps s fs q l2 : forall l1,
  ~ In (FriendRequest.id q) (map FriendRequest.id l1) ->
  ~ In (FriendRequest.id q) (map FriendRequest.id l2) ->
  auth = FriendRequest.receiver_id q ->
  update_requests now auth ps s (FriendRequest.id q) (l1 ++ q :: l2) fs
  = (fs1 <- on_friend_request_accepted now ps q (with_status s now q) fs ;;
     Commit (l1 ++ with_status s now q :: l2, fs1)).
Proof.
  intros l1 N1 N2 Ha. subst auth. unfold with_status. revert N1.
  induction l1 as [|x l1 IH]; intros N1.
  - cbn [app update_requests]. unfold can_update_request.
    rewrite !Nat.eqb_refl. cbn [andb].
    destruct (on_friend_request_accepted _ _ _ _ _) as [fs1|e];
      cbn [tx_bind]; [|reflexivity].
    rewrite update_requests_miss; [reflexivity|].
    intros q' Hq' E. exfalso. apply N2. rewrite <- E. now apply in_map.
  - cbn [app update_requests].
    assert (E : (FriendRequest.id x =? FriendRequest.id q) = false).
    { apply Nat.eqb_neq. intros E. apply N1. simpl. now left. }
    rewrite E. cbn [andb]. rewrite IH by (intros H; apply N1; simpl; now right).
    destruct (on_friend_request_accepted _ _ _ _ _); reflexivity.
Qed.

Lemma NoDup_ids_split (rs : list FriendRequest.t) q :
  NoDup (map FriendRequest.id rs) -> In q rs ->
  exists l1 l2, rs = l1 ++ q :: l2
    /\ ~ In (FriendRequest.id q) (map FriendRequest.id l1)
    /\ ~ In (FriendRequest.id q) (map FriendRequest.id l2).
Proof.
  intros ND Hin. apply in_split in Hin. destruct Hin as (l1 & l2 & ->).
  exists l1, l2. split; [reflexivity|].
  rewrite map_app in ND. simpl in ND. apply NoDup_remove_2 in ND.
  rewrite in_app_iff in ND. tauto.
Qed.

Lemma only_row_with_id q l1 l2 :
  ~ In (FriendRequest.id q) (map FriendRequest.id l1) ->
  ~ In (FriendRequest.id q) (map FriendRequest.id l2) ->
  forall q', In q' (l1 ++ q :: l2) ->
             FriendRequest.id q' = FriendRequest.id q -> q' = q.
Proof.
  intros N1 N2 q' Hq' Eid. apply in_app_iff in Hq'.
  destruct Hq' as [H|[H|H]]; [|now symmetry|];
    exfalso; [apply N1 | apply N2]; rewrite <- Eid; now apply in_map.
Qed.

Lemma find_request_split q l1 l2 :
  ~ In (FriendRequest.id q) (map FriendRequest.id l1) ->
  forall q', FriendRequest.id q' = FriendRequest.id q ->
  find_request (FriendRequest.id q) (l1 ++ q' :: l2) = Some q'.
Proof.
  intros N q' E. unfold find_request.
  induction l1 as [|x l1 IH]; simpl.
  - now rewrite E, Nat.eqb_refl.
  - destruct (FriendRequest.id x =? FriendRequest.id q) eqn:I.
    + apply Nat.eqb_eq in I. exfalso. apply N. simpl. now left.
    + apply IH. intros H. apply N. simpl. now right.
Qed.

Lemma exec_update_request_miss now auth s rid d :
  (forall q, In q (friend_requests d) -> FriendRequest.id q = rid ->
             auth <> FriendRequest.receiver_id q) ->
  exec now auth (update_friend_request s rid) d
  = (PgOk, log now auth (update_friend_request s rid) d).
Proof.
  intros H. unfold exec, run_stmt.
  rewrite update_requests_miss by exact H. destruct d; reflexivity.
Qed.

Lemma exec_update_request_hit now s d q l1 l2 :
  friend_requests d = l1 ++ q :: l2 ->
  ~ In (FriendRequest.id q) (map FriendRequest.id l1) ->
  ~ In (FriendRequest.id q) (map FriendRequest.id l2) ->
  exec now (FriendRequest.receiver_id q)
    (update_friend_request s (FriendRequest.id q)) d
  = match on_friend_request_accepted now (profiles d) q (with_status s now q)
            (friendships d) with
    | Commit fs1 =>
        (PgOk,
         log now (FriendRequest.receiver_id q)
           (update_friend_request s (FriendRequest.id q))
           (mk_db (profiles d) (l1 ++ with_status s now q :: l2) fs1
              (messages d) (journal d)))
    | Abort e =>
        (PgError e,
         log now (FriendRequest.receiver_id q)
           (update_friend_request s (FriendRequest.id q)) d)
    end.
Proof.
  intros E N1 N2. unfold exec, run_stmt.
  rewrite E, update_requests_hit by auto.
  destruct (on_friend_request_accepted _ _ _ _ _); reflexivity.
Qed.

Lemma trigger_fires now ps q fs :
  FriendRequest.status q = pending ->
  on_friend_request_accepted now ps q (with_status accepted now q) fs
  = create_friendship now ps (with_status accepted now q) fs.
Proof. intros St. unfold on_friend_request_accepted. now rewrite St. Qed.

Lemma trigger_silent now ps q s fs :
  s <> accepted \/ FriendRequest.status q <> pending ->
  on_friend_request_accepted now ps q (with_status s now q) fs = Commit fs.
Proof.
  intros H. unfold on_friend_request_accepted. simpl.
  destruct s, (FriendRequest.status q); simpl; try reflexivity;
    destruct H; congruence.
Qed.

(** ** Accepting and rejecting *)

(** C1: for a pending request from A to B, [acceptRequest] is all or
    nothing: afterwards either the request is [accepted] and both edges
    (A,B) and (B,A) are stored, or the request and the friendships are as
    before.  Run by the receiver B (both accounts existing) it succeeds: the
    request is [accepted], the stored edges are exactly the former ones plus
    (A,B) and (B,A), former rows are untouched, and no edge is stored twice,
    whether or not one of the two edges was already there. *)
Theorem C1_accept_pending_request
    (now : timestamp) (auth : uuid) (d : db) (q : FriendRequest.t) :
  NoDup (map FriendRequest.id (friend_requests d)) ->
  NoDup (edges (friendships d)) ->
  In q (friend_requests d) ->
  FriendRequest.status q = pending ->
  let A := FriendRequest.sender_id q in
  let B := FriendRequest.receiver_id q in
  let out := Sidebar.acceptRequest now auth (FriendRequest.id q) d in
  let d' := snd out in
  ((find_request (FriendRequest.id q) (friend_requests d')
      = Some (with_status accepted now q)
    /\ In (A, B) (edges (friendships d'))
    /\ In (B, A) (edges (friendships d')))
   \/ (friend_requests d' = friend_requests d
       /\ friendships d' = friendships d))
  /\ (auth = B ->
      profile_exists (profiles d) A = true ->
      profile_exists (profiles d) B = true ->
      fst out = [toast_success "Friend request accepted!"]
      /\ find_request (FriendRequest.id q) (friend_requests d')
         = Some (with_status accepted now q)
      /\ (forall e, In e (edges (friendships d')) <->
                    In e (edges (friendships d)) \/ e = (A, B) \/ e = (B, A))
      /\ NoDup (edges (friendships d'))
      /\ (exists more, friendships d' = friendships d ++ more)
      /\ (forall q', In q' (friend_requests d) -> q' <> q ->
                     In q' (friend_requests d'))).
Proof.
  intros PK UQ Hin St A B out d'.
  destruct (@NoDup_ids_split _ q PK Hin) as (l1 & l2 & E & N1 & N2).
  destruct (Nat.eq_dec auth B) as [Ha|Ha].
  - subst auth. subst d' out. unfold Sidebar.acceptRequest. subst B.
    rewrite (@exec_update_request_hit now accepted d q l1 l2 E N1 N2).
    rewrite (@trigger_fires now (profiles d) q (friendships d) St).
    destruct (@create_friendship_cases now (profiles d)
                (with_status accepted now q) (friendships d) eq_refl)
      as [(fs' & C & AB) | ((e & C) & P)]; rewrite C; cbn [fst snd].
    + simpl FriendRequest.sender_id in AB. simpl FriendRequest.receiver_id in AB.
      fold A in AB.
      assert (F : find_request (FriendRequest.id q)
                    (l1 ++ with_status accepted now q :: l2)
                  = Some (with_status accepted now q))
        by (apply find_request_split; [exact N1 | reflexivity]).
      destruct (adds_both_has AB) as [I1 I2].
      destruct AB as (M & I & ND).
      split; [left; cbn; auto|].
      intros _ _ _. cbn. repeat split; auto; try apply I.
      intros q' Hq' Nq. rewrite E in Hq'. apply in_app_iff in Hq'.
      apply in_app_iff. destruct Hq' as [H|[H|H]]; [now left| congruence |].
      right. now right.
    + simpl in P. split; [right; split; reflexivity|].
      intros _ PA PB. fold A in P. rewrite PA, PB in P. discriminate.
  - subst d' out. unfold Sidebar.acceptRequest.
    rewrite exec_update_request_miss.
    + cbn. split; [right; split; reflexivity | intros; contradiction].
    + intros q' Hq' Eid. rewrite E in Hq'.
      rewrite (@only_row_with_id q l1 l2 N1 N2 q' Hq' Eid). exact Ha.
Qed.

(** C1 at bob accepting alice's pending request. *)
Lemma C1_accept_pending_request_witness :
  (NoDup (map FriendRequest.id (friend_requests db_pending))
   /\ NoDup (edges (friendships db_pending))
   /\ In req_ab (friend_requests db_pending)
   /\ FriendRequest.status req_ab = pending)
  /\ edges (friendships (snd (Sidebar.acceptRequest 13%Z bob 7 db_pending)))
     = [(alice, bob); (bob, alice)].
Proof.
  assert (H1 : NoDup (map FriendRequest.id (friend_requests db_pending)))
    by (simpl; repeat constructor; simpl; tauto).
  assert (H2 : NoDup (edges (friendships db_pending)))
    by (simpl; constructor).
  assert (H3 : In req_ab (friend_requests db_pending)) by (simpl; now left).
  assert (H4 : FriendRequest.status req_ab = pending) by reflexivity.
  split; [auto|].
  pose proof (@C1_accept_pending_request 13%Z bob db_pending req_ab H1 H2 H3 H4)
    as [_ S].
  destruct (S eq_refl eq_refl eq_refl) as (_ & _ & _ & _ & _ & _).
  reflexivity.
Defined.

Lemma accept_without_trigger now auth d q :
  NoDup (map FriendRequest.id (friend_requests d)) ->
  In q (friend_requests d) ->
  auth <> FriendRequest.receiver_id q \/ FriendRequest.status q <> pending ->
  fst (Sidebar.acceptRequest now auth (FriendRequest.id q) d)
    = [toast_success "Friend request accepted!"]
  /\ friendships (snd (Sidebar.acceptRequest now auth (FriendRequest.id q) d))
     = friendships d
  /\ (auth <> FriendRequest.receiver_id q ->
      friend_requests (snd (Sidebar.acceptRequest now auth (FriendRequest.id q) d))
      = friend_requests d).
Proof.
  intros PK Hin H.
  destruct (@NoDup_ids_split _ q PK Hin) as (l1 & l2 & E & N1 & N2).
  unfold Sidebar.acceptRequest.
  destruct (Nat.eq_dec auth (FriendRequest.receiver_id q)) as [Ha|Ha].
  - subst auth. destruct H as [H|H]; [congruence|].
    rewrite (@exec_update_request_hit now accepted d q l1 l2 E N1 N2).
    rewrite trigger_silent by (now right). cbn.
    repeat split. congruence.
  - rewrite exec_update_request_miss.
    + cbn. repeat split.
    + intros q' Hq' Eid. rewrite E in Hq'.
      rewrite (@only_row_with_id q l1 l2 N1 N2 q' Hq' Eid). exact Ha.
Qed.

Lemma reject_by_receiver now d q l1 l2 :
  friend_requests d = l1 ++ q :: l2 ->
  ~ In (FriendRequest.id q) (map FriendRequest.id l1) ->
  ~ In (FriendRequest.id q) (map FriendRequest.id l2) ->
  Sidebar.rejectRequest now (FriendRequest.receiver_id q) (FriendRequest.id q) d
  = ([toast_success "Friend request rejected"],
     log now (FriendRequest.receiver_id q)
       (update_friend_request rejected (FriendRequest.id q))
       (mk_db (profiles d) (l1 ++ with_status rejected now q :: l2)
          (friendships d) (messages d) (journal d))).
Proof.
  intros E N1 N2. unfold Sidebar.rejectRequest.
  rewrite (@exec_update_request_hit now rejected d q l1 l2 E N1 N2).
  rewrite trigger_silent by (left; discriminate). reflexivity.
Qed.

(** C4 (counterexample): bob rejects alice's request and then accepts it: the
    accept reports success and the request ends up [accepted]; carol, who is
    not the receiver, accepts a pending request: no error either. *)
Lemma C4_accept_never_fails :
  fst (Sidebar.acceptRequest 13%Z bob 7
         (snd (Sidebar.rejectRequest 12%Z bob 7 db_pending)))
    = [toast_success "Friend request accepted!"]
  /\ option_map FriendRequest.status
       (find_request 7
          (friend_requests
             (snd (Sidebar.acceptRequest 13%Z bob 7
                     (snd (Sidebar.rejectRequest 12%Z bob 7 db_pending))))))
     = Some accepted
  /\ fst (Sidebar.acceptRequest 13%Z carol 7 db_pending)
     = [toast_success "Friend request accepted!"].
Proof. repeat split. Qed.

(** C4 (as amended): [acceptRequest] reports no Forbidden and no
    InvalidState error.  Run by anyone but the request's receiver it reports
    success and leaves the request and the friendships as they were; run on a
    request that is not pending it reports success and creates no Friendship
    edge; in particular, once the receiver has rejected a request (which
    stores [rejected] and creates no edge), a later accept on the same id, by
    anyone, creates no Friendship edge. *)
Theorem C4_accept_guards
    (now : timestamp) (auth : uuid) (d : db) (q : FriendRequest.t) :
  NoDup (map FriendRequest.id (friend_requests d)) ->
  In q (friend_requests d) ->
  let rid := FriendRequest.id q in
  let out := Sidebar.acceptRequest now auth rid d in
  (auth <> FriendRequest.receiver_id q ->
     fst out = [toast_success "Friend request accepted!"]
     /\ friend_requests (snd out) = friend_requests d
     /\ friendships (snd out) = friendships d)
  /\ (FriendRequest.status q <> pending ->
        fst out = [toast_success "Friend request accepted!"]
        /\ friendships (snd out) = friendships d)
  /\ (forall now1,
        let d1 := snd (Sidebar.rejectRequest now1
                         (FriendRequest.receiver_id q) rid d) in
        find_request rid (friend_requests d1)
          = Some (with_status rejected now1 q)
        /\ friendships d1 = friendships d
        /\ fst (Sidebar.acceptRequest now auth rid d1)
           = [toast_success "Friend request accepted!"]
        /\ friendships (snd (Sidebar.acceptRequest now auth rid d1))
           = friendships d).
Proof.
  intros PK Hin rid out. subst out rid.
  split; [|split].
  - intros Ha.
    destruct (@accept_without_trigger now auth d q PK Hin (or_introl Ha))
      as (T & F & R).
    auto.
  - intros Hs.
    destruct (@accept_without_trigger now auth d q PK Hin (or_intror Hs))
      as (T & F & _).
    auto.
  - intros now1 d1.
    destruct (@NoDup_ids_split _ q PK Hin) as (l1 & l2 & E & N1 & N2).
    subst d1. rewrite (@reject_by_receiver now1 d q l1 l2 E N1 N2).
    cbn [snd].
    set (q1 := with_status rejected now1 q).
    set (d1 := log _ _ _ _).
    assert (R1 : friend_requests d1 = l1 ++ q1 :: l2) by reflexivity.
    assert (F1 : friendships d1 = friendships d) by reflexivity.
    assert (PK1 : NoDup (map FriendRequest.id (friend_requests d1))).
    { rewrite R1, map_app. simpl. rewrite E, map_app in PK. exact PK. }
    assert (Hin1 : In q1 (friend_requests d1)).
    { rewrite R1. apply in_app_iff. right. now left. }
    destruct (@accept_without_trigger now auth d1 q1 PK1 Hin1)
      as (T & F & _); [right; discriminate|].
    split; [rewrite R1; apply find_request_split; [exact N1 | reflexivity]|].
    split; [exact F1|]. split; [exact T|]. now rewrite <- F1.
Qed.

(** C4 at bob rejecting, then accepting, alice's request. *)
Lemma C4_accept_guards_witness :
  (NoDup (map FriendRequest.id (friend_requests db_pending))
   /\ In req_ab (friend_requests db_pending))
  /\ friendships
       (snd (Sidebar.acceptRequest 13%Z bob 7
               (snd (Sidebar.rejectRequest 12%Z bob 7 db_pending))))
     = [].
Proof.
  assert (H1 : NoDup (map FriendRequest.id (friend_requests db_pending)))
    by (simpl; repeat constructor; simpl; tauto).
  assert (H2 : In req_ab (friend_requests db_pending)) by (simpl; now left).
  split; [auto|].
  pose proof (@C4_accept_guards 13%Z bob db_pending req_ab H1 H2) as (_ & _ & S).
  destruct (S 12%Z) as (_ & _ & _ & F). exact F.
Defined.

(** ** Sending a friend request *)

Section SendFriendRequest.

Variables (A B : uuid) (e : string) (pB : Profile.t).
Hypothesis e_not_empty : e <> ""%string.
Hypothesis B_id : Profile.id pB = B.
Hypothesis A_not_B : A <> B.

Lemma resolves_exists d :
  resolves e pB d -> profile_exists (profiles d) B = true.
Proof.
  unfold resolves, single. intros H.
  destruct (filter _ (profiles d)) as [|p [|p' l]] eqn:F; try discriminate.
  inversion H; subst p.
  assert (I : In pB (filter (fun p => String.eqb (Profile.email p) e)
                       (profiles d))) by (rewrite F; now left).
  apply filter_In in I. destruct I as [I _].
  unfold profile_exists. apply existsb_exists. exists pB.
  split; [exact I | now apply Nat.eqb_eq].
Qed.

Lemma send_new now s d :
  Sidebar.searchEmail s = e -> resolves e pB d ->
  profile_exists (profiles d) A = true ->
  request_exists (friend_requests d) A B = false ->
  Sidebar.sendFriendRequest now A s d
  = ([toast_success "Friend request sent!"],
     Sidebar.setSearching false (Sidebar.setSearchEmail "" s),
     log now A (insert_friend_request A B pending)
       (mk_db (profiles d)
          (friend_requests d ++
             [FriendRequest.mk
                (gen_random_uuid (map FriendRequest.id (friend_requests d)))
                A B pending now now])
          (friendships d) (messages d) (journal d))).
Proof.
  intros Hs Hr HA Hn. unfold Sidebar.sendFriendRequest.
  rewrite Hs. apply String.eqb_neq in e_not_empty. rewrite e_not_empty.
  pose proof (resolves_exists Hr) as HB.
  unfold resolves in Hr. rewrite Hr, B_id.
  assert (N : (B =? A) = false) by (apply Nat.eqb_neq; congruence).
  rewrite N. unfold exec, run_stmt.
  rewrite Nat.eqb_refl, Hn, HA, HB. reflexivity.
Qed.

Lemma send_duplicate now s d :
  Sidebar.searchEmail s = e -> resolves e pB d ->
  request_exists (friend_requests d) A B = true ->
  Sidebar.sendFriendRequest now A s d
  = ([toast_error "Friend request already sent"],
     Sidebar.setSearching false s,
     log now A (insert_friend_request A B pending) d).
Proof.
  intros Hs Hr He. unfold Sidebar.sendFriendRequest.
  rewrite Hs. apply String.eqb_neq in e_not_empty. rewrite e_not_empty.
  unfold resolves in Hr. rewrite Hr, B_id.
  assert (N : (B =? A) = false) by (apply Nat.eqb_neq; congruence).
  rewrite N. unfold exec, run_stmt.
  rewrite Nat.eqb_refl, He. reflexivity.
Qed.

End SendFriendRequest.

Lemma request_exists_between rs a b :
  request_exists rs a b = false -> requests_between a b rs = [].
Proof.
  unfold request_exists, requests_between.
  induction rs as [|q rs IH]; simpl; [reflexivity|].
  destruct ((FriendRequest.sender_id q =? a) && (FriendRequest.receiver_id q =? b));
    simpl; [discriminate | exact IH].
Qed.

(** C2: for accounts A and B with A <> B, B found by its e-mail address and
    no request stored yet for (A, B): of two [sendFriendRequest] calls in a
    row the first succeeds and the second reports "Friend request already
    sent" (the unique violation 23505, the spec's DuplicateRequest) and
    stores nothing, so exactly one request row for (A, B) is left, and it is
    pending.  Whatever was stored before, the second call is a duplicate. *)
Theorem C2_send_twice
    (now1 now2 : timestamp) (A B : uuid) (e : string) (pB : Profile.t)
    (s : Sidebar.state) (d : db) :
  e <> ""%string ->
  single (filter (fun p => String.eqb (Profile.email p) e) (profiles d))
    = Some pB ->
  Profile.id pB = B ->
  A <> B ->
  profile_exists (profiles d) A = true ->
  let r1 := Sidebar.sendFriendRequest now1 A (Sidebar.setSearchEmail e s) d in
  let r2 := Sidebar.sendFriendRequest now2 A
              (Sidebar.setSearchEmail e (snd (fst r1))) (snd r1) in
  fst (fst r2) = [toast_error "Friend request already sent"]
  /\ friend_requests (snd r2) = friend_requests (snd r1)
  /\ (request_exists (friend_requests d) A B = false ->
      fst (fst r1) = [toast_success "Friend request sent!"]
      /\ exists row,
           requests_between A B (friend_requests (snd r2)) = [row]
           /\ FriendRequest.sender_id row = A
           /\ FriendRequest.receiver_id row = B
           /\ FriendRequest.status row = pending
           /\ friend_requests (snd r2) = friend_requests d ++ [row]).
Proof.
  intros He Hr Hb Hab HA r1 r2.
  destruct (request_exists (friend_requests d) A B) eqn:Ex.
  - assert (E1 : r1 = ([toast_error "Friend request already sent"],
                       Sidebar.setSearching false (Sidebar.setSearchEmail e s),
                       log now1 A (insert_friend_request A B pending) d)).
    { subst r1. apply (@send_duplicate A B e pB); auto. }
    subst r2. rewrite E1. cbn [fst snd].
    rewrite (@send_duplicate A B e pB He Hb Hab now2); auto.
    split; [reflexivity|]. split; [reflexivity|]. discriminate.
  - set (row := FriendRequest.mk
                  (gen_random_uuid (map FriendRequest.id (friend_requests d)))
                  A B pending now1 now1).
    assert (E1 : r1 = ([toast_success "Friend request sent!"],
                       Sidebar.setSearching false
                         (Sidebar.setSearchEmail "" (Sidebar.setSearchEmail e s)),
                       log now1 A (insert_friend_request A B pending)
                         (mk_db (profiles d) (friend_requests d ++ [row])
                            (friendships d) (messages d) (journal d)))).
    { subst r1. apply (@send_new A B e pB); auto. }
    subst r2. rewrite E1. cbn [fst snd].
    rewrite (@send_duplicate A B e pB He Hb Hab now2); auto.
    + split; [reflexivity|]. split; [reflexivity|]. intros _.
      split; [reflexivity|]. cbn [fst snd log friend_requests].
      exists row. unfold requests_between. rewrite filter_app.
      fold (requests_between A B (friend_requests d)).
      rewrite (request_exists_between _ _ _ Ex). simpl.
      rewrite !Nat.eqb_refl. simpl. repeat split.
    + cbn. unfold request_exists. rewrite existsb_app. simpl.
      rewrite !Nat.eqb_refl. simpl. apply orb_true_r.
Qed.

(** C2 at alice sending to bob@x.com twice. *)
Lemma C2_send_twice_witness :
  ("bob@x.com"%string <> ""%string
   /\ single (filter (fun p => String.eqb (Profile.email p) "bob@x.com")
                (profiles db0))
      = Some (profile_of bob "bob@x.com")
   /\ Profile.id (profile_of bob "bob@x.com") = bob
   /\ alice <> bob
   /\ profile_exists (profiles db0) alice = true)
  /\ fst (fst (Sidebar.sendFriendRequest 11%Z alice
                 (Sidebar.mk "bob@x.com" false)
                 (snd (Sidebar.sendFriendRequest 10%Z alice
                         (Sidebar.mk "bob@x.com" false) db0))))
     = [toast_error "Friend request already sent"].
Proof.
  assert (H1 : "bob@x.com"%string <> ""%string) by discriminate.
  assert (H2 : single (filter (fun p => String.eqb (Profile.email p) "bob@x.com")
                         (profiles db0))
               = Some (profile_of bob "bob@x.com")) by reflexivity.
  assert (H3 : Profile.id (profile_of bob "bob@x.com") = bob) by reflexivity.
  assert (H4 : alice <> bob) by discriminate.
  assert (H5 : profile_exists (profiles db0) alice = true) by reflexivity.
  split; [auto|].
  pose proof (@C2_send_twice 10%Z 11%Z alice bob "bob@x.com"
                (profile_of bob "bob@x.com") (Sidebar.mk "" false) db0
                H1 H2 H3 H4 H5) as (T & _).
  exact T.
Defined.

(** ** Sending a message: instances *)

(** C8 (counterexample): a draft of two spaces: [sendMessage] returns without
    a toast, the component and the datastore untouched; no EmptyContent
    failure is raised. *)
Lemma C8_blank_draft_no_error :
  ChatArea.sendMessage 20%Z alice (Some friend_bob)
    (ChatArea.mk [] blanks false) db0
  = ([], ChatArea.mk [] blanks false, db0).
Proof. reflexivity. Qed.

(** C8 at alice sending "hi" to bob. *)
Lemma C8_sendMessage_blank_or_one_row_witness :
  ChatArea.sending (ChatArea.mk [] hi false) = false
  /\ fst (fst (ChatArea.sendMessage 20%Z alice (Some friend_bob)
                 (ChatArea.mk [] hi false) db0)) = []
  /\ messages (snd (ChatArea.sendMessage 20%Z alice (Some friend_bob)
                      (ChatArea.mk [] hi false) db0)) = [msg_hi].
Proof.
  split; [reflexivity|].
  destruct (@C8_sendMessage_blank_or_one_row 20%Z alice friend_bob
              (ChatArea.mk [] hi false) db0 eq_refl) as (_ & S).
  destruct (S ltac:(discriminate)) as (_ & _ & _ & _ & _ & _ & T & _).
  split; [exact T | reflexivity].
Defined.

(** C10 at a draft with white space on both sides of "hi". *)
Lemma C10_stored_content_is_trimmed_witness :
  messages (snd (ChatArea.sendMessage 20%Z alice (Some friend_bob)
                   (ChatArea.mk [] padded_hi false) db0))
    = messages db0 ++ [msg_hi]
  /\ Message.content msg_hi = hi
  /\ Message.content msg_hi = trim padded_hi.
Proof.
  assert (H : messages (snd (ChatArea.sendMessage 20%Z alice (Some friend_bob)
                               (ChatArea.mk [] padded_hi false) db0))
              = messages db0 ++ [msg_hi]) by reflexivity.
  split; [exact H|]. split; [reflexivity|].
  destruct (@C10_stored_content_is_trimmed 20%Z alice (Some friend_bob)
              (ChatArea.mk [] padded_hi false) db0 msg_hi H) as [E _].
  exact E.
Defined.

(** * Further properties *)

(** ** How the friendships table grows *)

Lemma insert_friendship_adds_row now ps u f fs fs' :
  insert_friendship_on_conflict_do_nothing now ps u f fs = Commit fs' ->
  adds_row ps u f fs fs'.
Proof.
  unfold insert_friendship_on_conflict_do_nothing, adds_row.
  destruct (friendship_exists fs u f) eqn:E.
  - intros H; inversion H; subst. left. split; [reflexivity|].
    now apply friendship_exists_In.
  - destruct (profile_exists ps u && profile_exists ps f) eqn:P; [|discriminate].
    intros H; inversion H; subst. right. eexists. split; [reflexivity|].
    apply andb_true_iff in P. simpl. repeat split; try tauto.
    + rewrite <- friendship_exists_In. congruence.
    + apply gen_random_uuid_fresh.
Qed.

Lemma adds_row_edges ps u f fs fs' :
  adds_row ps u f fs fs' ->
  forall e, In e (edges fs') <-> In e (edges fs) \/ e = (u, f).
Proof.
  intros [[-> I] | (row & -> & U & F & _)] e.
  - split; [auto | intros [H| ->]; auto].
  - unfold edges. rewrite map_app, in_app_iff. simpl. rewrite U, F.
    intuition.
Qed.

Lemma adds_row_prefix ps u f fs fs' :
  adds_row ps u f fs fs' -> exists more, fs' = fs ++ more.
Proof.
  intros [[-> _] | (row & -> & _)].
  - exists []. now rewrite app_nil_r.
  - now exists [row].
Qed.

Lemma NoDup_snoc {A : Type} (l : list A) (x : A) :
  NoDup l -> ~ In x l -> NoDup (l ++ [x]).
Proof.
  intros ND N. apply (Permutation_NoDup (Permutation_cons_append _ _)).
  now constructor.
Qed.

Lemma adds_row_NoDup_edges ps u f fs fs' :
  adds_row ps u f fs fs' -> NoDup (edges fs) -> NoDup (edges fs').
Proof.
  intros [[-> _] | (row & -> & U & F & N & _)] ND; [exact ND|].
  unfold edges. rewrite map_app. simpl. rewrite U, F. now apply NoDup_snoc.
Qed.

Lemma adds_row_NoDup_ids ps u f fs fs' :
  adds_row ps u f fs fs' ->
  NoDup (map Friendship.id fs) -> NoDup (map Friendship.id fs').
Proof.
  intros [[-> _] | (row & -> & _ & _ & _ & N & _)] ND; [exact ND|].
  rewrite map_app. simpl. now apply NoDup_snoc.
Qed.

Lemma adds_row_references ps u f fs fs' :
  adds_row ps u f fs fs' ->
  Forall (fun e => references ps (Friendship.user_id e) (Friendship.friend_id e)) fs ->
  Forall (fun e => references ps (Friendship.user_id e) (Friendship.friend_id e)) fs'.
Proof.
  intros [[-> _] | (row & -> & U & F & _ & _ & R)] H; [exact H|].
  apply Forall_app. split; [exact H|]. constructor; [|constructor].
  now rewrite U, F.
Qed.

Lemma trigger_adds now ps OLD NEW fs fs' :
  FriendRequest.sender_id NEW = FriendRequest.sender_id OLD ->
  FriendRequest.receiver_id NEW = FriendRequest.receiver_id OLD ->
  on_friend_request_accepted now ps OLD NEW fs = Commit fs' ->
  fs' = fs
  \/ exists fs1,
       adds_row ps (FriendRequest.sender_id OLD) (FriendRequest.receiver_id OLD)
         fs fs1
       /\ adds_row ps (FriendRequest.receiver_id OLD) (FriendRequest.sender_id OLD)
            fs1 fs'.
Proof.
  intros Es Er. unfold on_friend_request_accepted, create_friendship.
  destruct (req_status_eqb (FriendRequest.status NEW) accepted);
    cbn [andb]; [|intros H; inversion H; now left].
  destruct (req_status_eqb (FriendRequest.status OLD) pending);
    [|intros H; inversion H; now left].
  rewrite Es, Er.
  destruct (insert_friendship_on_conflict_do_nothing now ps
              (FriendRequest.sender_id OLD) (FriendRequest.receiver_id OLD) fs)
    as [fs1|e] eqn:E1; cbn [tx_bind]; [|discriminate].
  intros E2. right. exists fs1.
  split; eapply insert_friendship_adds_row; eassumption.
Qed.

Lemma grows_weaken ps rs rs' fs fs' :
  (forall q, In q rs -> In q rs') -> grows ps rs fs fs' -> grows ps rs' fs fs'.
Proof.
  intros H G. induction G as [fs | q fs fs1 fs2 fs3 Hq A1 A2 G IH].
  - constructor.
  - eapply grows_pair; eauto.
Qed.

(** What [UPDATE friend_requests SET status = s WHERE id = rid] does when it
    commits: each row is untouched, or is a row with that id addressed to
    the caller and gets the status; the friendships grow by the trigger. *)
Lemma update_requests_spec now auth ps s rid : forall rs fs rs' fs',
  update_requests now auth ps s rid rs fs = Commit (rs', fs') ->
  Forall2 (fun q q' => q' = q
                       \/ (q' = with_status s now q
                           /\ FriendRequest.id q = rid
                           /\ auth = FriendRequest.receiver_id q)) rs rs'
  /\ grows ps rs fs fs'.
Proof.
  induction rs as [|OLD rest IH]; intros fs rs' fs'; cbn [update_requests].
  - intros H; inversion H; subst. split; constructor.
  - destruct ((FriendRequest.id OLD =? rid) && can_update_request auth OLD) eqn:C.
    + apply andb_true_iff in C. destruct C as [Ci Ca].
      apply Nat.eqb_eq in Ci. unfold can_update_request in Ca.
      apply Nat.eqb_eq in Ca.
      fold (with_status s now OLD).
      destruct (on_friend_request_accepted now ps OLD (with_status s now OLD) fs)
        as [fs1|e] eqn:T; cbn [tx_bind]; [|discriminate].
      destruct (update_requests now auth ps s rid rest fs1) as [[rs1 fs2]|e] eqn:U;
        cbn [tx_bind fst snd]; [|discriminate].
      intros H; inversion H; subst rs' fs'.
      destruct (IH _ _ _ U) as [F G].
      split; [constructor; [right; auto | exact F]|].
      assert (G' : grows ps (OLD :: rest) fs1 fs2)
        by (eapply grows_weaken; [|exact G]; intros; now right).
      apply trigger_adds in T; [|reflexivity|reflexivity].
      destruct T as [-> | (fsa & A1 & A2)]; [exact G'|].
      eapply grows_pair; [now left | exact A1 | exact A2 | exact G'].
    + destruct (update_requests now auth ps s rid rest fs) as [[rs1 fs2]|e] eqn:U;
        cbn [tx_bind fst snd]; [|discriminate].
      intros H; inversion H; subst rs' fs'.
      destruct (IH _ _ _ U) as [F G].
      split; [constructor; [now left | exact F]|].
      eapply grows_weaken; [|exact G]. intros; now right.
Qed.

Lemma grows_prefix ps rs fs fs' : grows ps rs fs fs' -> exists more, fs' = fs ++ more.
Proof.
  induction 1 as [fs | q fs fs1 fs2 fs3 Hq A1 A2 G [m3 ->]].
  - exists []. now rewrite app_nil_r.
  - destruct (adds_row_prefix A1) as [m1 ->].
    destruct (adds_row_prefix A2) as [m2 ->].
    exists (m1 ++ m2 ++ m3). now rewrite !app_assoc.
Qed.

Lemma grows_NoDup_edges ps rs fs fs' :
  grows ps rs fs fs' -> NoDup (edges fs) -> NoDup (edges fs').
Proof.
  induction 1; intros ND; [exact ND|].
  eauto using adds_row_NoDup_edges.
Qed.

Lemma grows_NoDup_ids ps rs fs fs' :
  grows ps rs fs fs' ->
  NoDup (map Friendship.id fs) -> NoDup (map Friendship.id fs').
Proof.
  induction 1; intros ND; [exact ND|].
  eauto using adds_row_NoDup_ids.
Qed.

Lemma grows_references ps rs fs fs' :
  grows ps rs fs fs' ->
  Forall (fun e => references ps (Friendship.user_id e) (Friendship.friend_id e)) fs ->
  Forall (fun e => references ps (Friendship.user_id e) (Friendship.friend_id e)) fs'.
Proof.
  induction 1; intros F; [exact F|].
  eauto using adds_row_references.
Qed.

Lemma grows_symmetric ps rs fs fs' :
  grows ps rs fs fs' -> symmetric fs -> symmetric fs'.
Proof.
  induction 1 as [fs | q fs fs1 fs2 fs3 Hq A1 A2 G IH]; intros S; [exact S|].
  apply IH. intros u f H.
  apply (adds_row_edges A2) in H. rewrite (adds_row_edges A1) in H.
  apply (adds_row_edges A2). rewrite (adds_row_edges A1).
  destruct H as [[H|H]|H].
  - left; left. now apply S.
  - inversion H; subst. now right.
  - inversion H; subst. left; now right.
Qed.

Lemma grows_backed ps rs fs fs' :
  grows ps rs fs fs' -> backed rs fs -> backed rs fs'.
Proof.
  induction 1 as [fs | q fs fs1 fs2 fs3 Hq A1 A2 G IH]; intros B; [exact B|].
  apply IH. intros u f H.
  apply (adds_row_edges A2) in H. rewrite (adds_row_edges A1) in H.
  destruct H as [[H|H]|H].
  - now apply B.
  - inversion H; subst. exists q. split; [exact Hq | left; auto].
  - inversion H; subst. exists q. split; [exact Hq | right; auto].
Qed.

(** ** What one statement does to each table *)

Lemma kept_by_one u p p' : kept u p p' <-> kept_by [u] p p'.
Proof.
  unfold kept, kept_by. simpl. intuition.
Qed.

Lemma update_profiles_kept now auth st seen pid ps :
  Forall2 (kept auth) ps (update_profiles now auth st seen pid ps).
Proof.
  induction ps as [|p ps IH]; simpl; constructor; [|exact IH].
  destruct ((Profile.id p =? pid) && (auth =? Profile.id p)) eqn:E.
  - apply andb_true_iff in E. destruct E as [_ E]. apply Nat.eqb_eq in E.
    unfold kept; simpl. repeat split. congruence.
  - apply kept_refl.
Qed.

Lemma kept_exists u ps ps' a :
  Forall2 (kept u) ps ps' -> profile_exists ps' a = profile_exists ps a.
Proof.
  unfold profile_exists. induction 1 as [|p p' ps ps' K F IH]; simpl; [reflexivity|].
  destruct K as (I & _). now rewrite I, IH.
Qed.

Lemma kept_ids u ps ps' :
  Forall2 (kept u) ps ps' -> map Profile.id ps' = map Profile.id ps.
Proof.
  induction 1 as [|p p' ps ps' K F IH]; simpl; [reflexivity|].
  destruct K as (I & _). now rewrite I, IH.
Qed.

Lemma run_stmt_profiles now auth s d d' :
  run_stmt now auth s d = Commit d' ->
  Forall2 (kept auth) (profiles d) (profiles d').
Proof.
  destruct s; simpl.
  - destruct (negb _); [discriminate|]. destruct (request_exists _ _ _);
      [discriminate|]. destruct (negb _); [discriminate|].
    intros H; inversion H; simpl. apply Forall2_same, kept_refl.
  - destruct (update_requests _ _ _ _ _ _ _); simpl; [|discriminate].
    intros H; inversion H; simpl. apply Forall2_same, kept_refl.
  - destruct (negb _); [discriminate|]. destruct (negb _); [discriminate|].
    destruct (negb _); [discriminate|].
    intros H; inversion H; simpl. apply Forall2_same, kept_refl.
  - intros H; inversion H; simpl. apply Forall2_same, kept_refl.
  - intros H; inversion H; simpl. apply Forall2_same, kept_refl.
  - intros H; inversion H; simpl. apply update_profiles_kept.
Qed.

Lemma run_stmt_friendships now auth s d d' :
  run_stmt now auth s d = Commit d' ->
  grows (profiles d) (friend_requests d) (friendships d) (friendships d').
Proof.
  destruct s; simpl.
  - destruct (negb _); [discriminate|]. destruct (request_exists _ _ _);
      [discriminate|]. destruct (negb _); [discriminate|].
    intros H; inversion H; simpl. constructor.
  - destruct (update_requests _ _ _ _ _ _ _) as [[rs' fs']|e] eqn:U; simpl;
      [|discriminate].
    intros H; inversion H; simpl. now apply update_requests_spec in U.
  - destruct (negb _); [discriminate|]. destruct (negb _); [discriminate|].
    destruct (negb _); [discriminate|].
    intros H; inversion H; simpl. constructor.
  - intros H; inversion H; simpl. constructor.
  - intros H; inversion H; simpl. constructor.
  - intros H; inversion H; simpl. constructor.
Qed.

Lemma request_step_by_refl actors q : request_step_by actors q q.
Proof. unfold request_step_by. intuition congruence. Qed.

Lemma request_exists_pairs rs a b :
  request_exists rs a b = true <-> In (a, b) (pairs rs).
Proof.
  unfold request_exists, pairs. rewrite existsb_exists, in_map_iff.
  split.
  - intros (q & Hq & E). apply andb_true_iff in E. destruct E as [E1 E2].
    apply Nat.eqb_eq in E1, E2. exists q. split; [congruence | exact Hq].
  - intros (q & E & Hq). inversion E; subst. exists q.
    split; [exact Hq | now rewrite !Nat.eqb_refl].
Qed.

(** The requests table after a committed statement: old rows in place, each
    the same or restamped by its receiver; at most one new row, inserted by
    its sender under a new id for a pair not stored before. *)
Lemma run_stmt_requests now auth s d d' :
  run_stmt now auth s d = Commit d' ->
  exists old more,
    friend_requests d' = old ++ more
    /\ Forall2 (request_step_by [auth]) (friend_requests d) old
    /\ (more = []
        \/ exists row,
             more = [row]
             /\ s = insert_friend_request (FriendRequest.sender_id row)
                      (FriendRequest.receiver_id row) (FriendRequest.status row)
             /\ FriendRequest.sender_id row = auth
             /\ ~ In (FriendRequest.id row)
                    (map FriendRequest.id (friend_requests d))
             /\ ~ In (FriendRequest.sender_id row, FriendRequest.receiver_id row)
                    (pairs (friend_requests d))
             /\ references (profiles d) (FriendRequest.sender_id row)
                  (FriendRequest.receiver_id row)).
Proof.
  assert (Same : forall rs, friend_requests d' = rs -> rs = friend_requests d ->
            exists old more,
              friend_requests d' = old ++ more
              /\ Forall2 (request_step_by [auth]) (friend_requests d) old
              /\ (more = [] \/ exists row, more = [row]
                    /\ s = insert_friend_request (FriendRequest.sender_id row)
                             (FriendRequest.receiver_id row)
                             (FriendRequest.status row)
                    /\ FriendRequest.sender_id row = auth
                    /\ ~ In (FriendRequest.id row)
                           (map FriendRequest.id (friend_requests d))
                    /\ ~ In (FriendRequest.sender_id row,
                             FriendRequest.receiver_id row)
                           (pairs (friend_requests d))
                    /\ references (profiles d) (FriendRequest.sender_id row)
                         (FriendRequest.receiver_id row))).
  { intros rs E1 E2. exists (friend_requests d), [].
    rewrite app_nil_r. split; [congruence|].
    split; [apply Forall2_same, request_step_by_refl | now left]. }
  destruct s; simpl.
  - destruct (auth =? sender_id) eqn:Ea; cbn [negb]; [|discriminate].
    apply Nat.eqb_eq in Ea.
    destruct (request_exists _ _ _) eqn:Ex; [discriminate|].
    destruct (profile_exists (profiles d) sender_id
              && profile_exists (profiles d) receiver_id) eqn:P;
      cbn [negb]; [|discriminate].
    intros H; inversion H; subst d'; simpl. clear Same.
    eexists _, _. split; [reflexivity|].
    split; [apply Forall2_same, request_step_by_refl|].
    right. eexists. split; [reflexivity|]. simpl.
    apply andb_true_iff in P.
    repeat split; try tauto; try congruence.
    + apply gen_random_uuid_fresh.
    + rewrite <- request_exists_pairs. congruence.
  - destruct (update_requests _ _ _ _ _ _ _) as [[rs' fs']|e] eqn:U; simpl;
      [|discriminate].
    intros H; inversion H; subst d'; simpl. clear Same.
    apply update_requests_spec in U. destruct U as [F _].
    exists rs', []. rewrite app_nil_r. split; [reflexivity|].
    split; [|now left].
    eapply Forall2_impl; [|exact F].
    intros q q' [-> | (-> & _ & Ha)]; [apply request_step_by_refl|].
    unfold request_step_by; simpl. repeat split. intros _. now left.
  - destruct (negb _); [discriminate|]. destruct (negb _); [discriminate|].
    destruct (negb _); [discriminate|].
    intros H; inversion H; subst d'. now apply Same with (rs := friend_requests d).
  - intros H; inversion H; subst d'. now apply Same with (rs := friend_requests d).
  - intros H; inversion H; subst d'. now apply Same with (rs := friend_requests d).
  - intros H; inversion H; subst d'. now apply Same with (rs := friend_requests d).
Qed.

(** The messages table after a committed statement, likewise. *)
Lemma run_stmt_messages_rows now auth s d d' :
  run_stmt now auth s d = Commit d' ->
  exists old more,
    messages d' = old ++ more
    /\ Forall2 (read_step_by [auth]) (messages d) old
    /\ (more = []
        \/ exists row,
             more = [row]
             /\ s = insert_message (Message.sender_id row)
                      (Message.receiver_id row) (Message.content row)
             /\ Message.sender_id row = auth
             /\ Message.read row = false
             /\ ~ In (Message.id row) (map Message.id (messages d))
             /\ references (profiles d) (Message.sender_id row)
                  (Message.receiver_id row)).
Proof.
  assert (R : forall ms, Forall2 (read_step_by [auth]) (messages d) ms ->
            messages d' = ms ->
            exists old more,
              messages d' = old ++ more
              /\ Forall2 (read_step_by [auth]) (messages d) old
              /\ (more = [] \/ exists row, more = [row]
                    /\ s = insert_message (Message.sender_id row)
                             (Message.receiver_id row) (Message.content row)
                    /\ Message.sender_id row = auth
                    /\ Message.read row = false
                    /\ ~ In (Message.id row) (map Message.id (messages d))
                    /\ references (profiles d) (Message.sender_id row)
                         (Message.receiver_id row))).
  { intros ms F E. exists ms, []. rewrite app_nil_r. auto. }
  assert (U : forall sel, Forall2 (read_step_by [auth]) (messages d)
                            (update_read auth sel (messages d))).
  { intros sel. eapply Forall2_impl; [|apply update_read_changes].
    intros m m' [->|[-> <-]];
      [apply read_step_by_refl | apply read_step_by_set_read]. }
  assert (Same := Forall2_same (read_step_by [auth]) (messages d)
                    (read_step_by_refl [auth])).
  destruct s; simpl.
  - destruct (negb _); [discriminate|]. destruct (request_exists _ _ _);
      [discriminate|]. destruct (negb _); [discriminate|].
    intros H; inversion H; subst d'. now apply R with (ms := messages d).
  - destruct (update_requests _ _ _ _ _ _ _); simpl; [|discriminate].
    intros H; inversion H; subst d'. now apply R with (ms := messages d).
  - destruct (storable_text content); cbn [negb]; [|discriminate].
    destruct (auth =? sender_id) eqn:Ea; cbn [negb]; [|discriminate].
    apply Nat.eqb_eq in Ea.
    destruct (profile_exists (profiles d) sender_id
              && profile_exists (profiles d) receiver_id) eqn:P;
      cbn [negb]; [|discriminate].
    intros H; inversion H; subst d'; simpl. clear R.
    eexists _, _. split; [reflexivity|]. split; [exact Same|].
    right. eexists. split; [reflexivity|]. simpl.
    apply andb_true_iff in P. repeat split; try tauto; try congruence.
    apply gen_random_uuid_fresh.
  - intros H; inversion H; subst d'. eapply R; [apply U | reflexivity].
  - intros H; inversion H; subst d'. eapply R; [apply U | reflexivity].
  - intros H; inversion H; subst d'. now apply R with (ms := messages d).
Qed.

(** ** The declared constraints are kept *)

Lemma Forall2_map_eq {A B : Type} (R : A -> A -> Prop) (f : A -> B) l l' :
  (forall x y, R x y -> f y = f x) -> Forall2 R l l' -> map f l' = map f l.
Proof.
  intros H. induction 1 as [|x y l l' Rxy F IH]; simpl; [reflexivity|].
  now rewrite (H _ _ Rxy), IH.
Qed.

Lemma Forall2_Forall {A : Type} (R : A -> A -> Prop) (P Q : A -> Prop) l l' :
  (forall x y, R x y -> P x -> Q y) -> Forall2 R l l' -> Forall P l -> Forall Q l'.
Proof.
  intros H. induction 1 as [|x y l l' Rxy F IH]; intros HP; constructor;
    inversion HP; subst; eauto.
Qed.

Lemma references_kept u ps ps' a b :
  Forall2 (kept u) ps ps' -> references ps a b -> references ps' a b.
Proof.
  intros K [Ha Hb]. unfold references.
  now rewrite !(kept_exists _ K), Ha, Hb.
Qed.

Lemma run_stmt_constraints now auth s d d' :
  run_stmt now auth s d = Commit d' -> constraints d -> constraints d'.
Proof.
  intros E (Pp & Pr & Up & Pf & Ue & Pm & Fr & Ff & Fm).
  pose proof (run_stmt_profiles _ _ _ _ E) as K.
  pose proof (run_stmt_friendships _ _ _ _ E) as G.
  destruct (run_stmt_requests _ _ _ _ E) as (ro & rm & Er & Fro & Hrm).
  destruct (run_stmt_messages_rows _ _ _ _ E) as (mo & mm & Em & Fmo & Hmm).
  assert (Iro : map FriendRequest.id ro = map FriendRequest.id (friend_requests d)).
  { eapply Forall2_map_eq; [|exact Fro]. now intros x y (I & _). }
  assert (Pro : pairs ro = pairs (friend_requests d)).
  { unfold pairs. eapply Forall2_map_eq; [|exact Fro].
    intros x y (_ & S & R & _). now rewrite S, R. }
  assert (Imo : map Message.id mo = map Message.id (messages d)).
  { eapply Forall2_map_eq; [|exact Fmo]. now intros x y (I & _). }
  unfold constraints. rewrite Er, Em.
  repeat split.
  - now rewrite (kept_ids K).
  - rewrite map_app, Iro.
    destruct Hrm as [-> | (row & -> & _ & _ & N & _)];
      [now rewrite app_nil_r | now apply NoDup_snoc].
  - replace (pairs (ro ++ rm)) with (pairs (friend_requests d) ++ pairs rm)
      by (rewrite <- Pro; unfold pairs; now rewrite map_app).
    destruct Hrm as [-> | (row & -> & _ & _ & _ & N & _)];
      [now rewrite app_nil_r | now apply NoDup_snoc].
  - eapply grows_NoDup_ids; eassumption.
  - eapply grows_NoDup_edges; eassumption.
  - rewrite map_app, Imo.
    destruct Hmm as [-> | (row & -> & _ & _ & _ & N & _)];
      [now rewrite app_nil_r | now apply NoDup_snoc].
  - apply Forall_app. split.
    + eapply Forall2_Forall; [|exact Fro|exact Fr].
      intros x y (_ & S & R & _) H. rewrite S, R.
      eapply references_kept; eassumption.
    + destruct Hrm as [-> | (row & -> & _ & _ & _ & _ & R)]; constructor;
        [|constructor]. eapply references_kept; eassumption.
  - eapply Forall_impl; [|eapply grows_references; eassumption].
    intros e H. eapply references_kept; eassumption.
  - apply Forall_app. split.
    + eapply Forall2_Forall; [|exact Fmo|exact Fm].
      intros x y (_ & S & R & _) H. rewrite S, R.
      eapply references_kept; eassumption.
    + destruct Hmm as [-> | (row & -> & _ & _ & _ & _ & R)]; constructor;
        [|constructor]. eapply references_kept; eassumption.
Qed.

Lemma exec_constraints now auth s d :
  constraints d -> constraints (snd (exec now auth s d)).
Proof.
  intros C. unfold exec. destruct (run_stmt now auth s d) as [d'|e] eqn:E.
  - apply (@run_stmt_constraints now auth s d d' E) in C. exact C.
  - exact C.
Qed.

(** ** One operation, at most one statement *)

Lemma step_cases now o d :
  step now o d = d
  \/ exists s, sends now o s /\ step now o d = snd (exec now (actor o) s d).
Proof.
  destruct o; cbn [step actor].
  - unfold Sidebar.sendFriendRequest.
    destruct (String.eqb _ _); [now left|].
    destruct (single _) as [p|]; [|now left].
    destruct (Profile.id p =? user) eqn:Ep; [now left|].
    right. exists (insert_friend_request user (Profile.id p) pending).
    apply Nat.eqb_neq in Ep. split; [simpl; auto|].
    destruct (exec _ _ _ _) as [[|e] d']; [reflexivity|].
    destruct (String.eqb _ _); reflexivity.
  - right. exists (update_friend_request accepted requestId).
    split; [simpl; auto|]. unfold Sidebar.acceptRequest.
    destruct (exec _ _ _ _) as [[|e] d']; reflexivity.
  - right. exists (update_friend_request rejected requestId).
    split; [simpl; auto|]. unfold Sidebar.rejectRequest.
    destruct (exec _ _ _ _) as [[|e] d']; reflexivity.
  - unfold ChatArea.loadMessages.
    match goal with |- context [0 <? List.length ?l] => set (ids := l) end.
    destruct (0 <? List.length ids) eqn:E; [|now left].
    right. exists (update_messages_read_in ids). split; [|reflexivity].
    simpl. intros N. rewrite N in E. discriminate.
  - unfold ChatArea.on_insert, dropped.
    destruct (Message.receiver_id payload_new =? user); now left.
  - unfold ChatArea.sendMessage.
    destruct friend as [f|]; [|now left].
    destruct (falsy (trim (ChatArea.newMessage s))) eqn:F; [now left|].
    destruct (ChatArea.sending s); [now left|]. cbn [orb].
    right. exists (insert_message user (Profile.id f)
                     (trim (ChatArea.newMessage s))).
    split.
    + simpl. repeat split. intros N. rewrite N in F. discriminate.
    + destruct (exec _ _ _ _) as [[|e] d']; reflexivity.
  - right. exists (update_profile "online" now user).
    split; [simpl; auto | reflexivity].
  - now left.
Qed.

Lemma exec_cases now auth s d :
  (exists d', run_stmt now auth s d = Commit d'
              /\ snd (exec now auth s d) = log now auth s d')
  \/ snd (exec now auth s d) = log now auth s d.
Proof.
  unfold exec. destruct (run_stmt now auth s d) as [d'|e]; [left|right; reflexivity].
  now exists d'.
Qed.

Lemma run_invariant (I : db -> Prop) :
  (forall now auth s d, I d -> I (snd (exec now auth s d))) ->
  forall ops d, I d -> I (run ops d).
Proof.
  intros H ops. induction ops as [|[now o] rest IH]; intros d Hd; simpl; [exact Hd|].
  apply IH. destruct (step_cases now o d) as [-> | (s & _ & ->)]; auto.
Qed.

(** X1: the constraints the migration declares (primary keys, the UNIQUE
    pairs of friend_requests and friendships, the foreign keys into
    profiles) hold after every run of the core's operations if they held
    before. *)
Theorem X1_constraints_kept (ops : list (timestamp * op)) (d : db) :
  constraints d -> constraints (run ops d).
Proof.
  apply run_invariant. intros now auth s d0. apply exec_constraints.
Qed.

(** ** Friendships along a run *)

Lemma exec_friendships now auth s d :
  grows (profiles d) (friend_requests d) (friendships d)
    (friendships (snd (exec now auth s d))).
Proof.
  destruct (exec_cases now auth s d) as [(d' & E & ->) | ->]; simpl.
  - now apply run_stmt_friendships in E.
  - constructor.
Qed.

(** X2: the friendship relation stays symmetric: if every stored edge has
    its reverse stored before a run of the core's operations, the same
    holds after it. *)
Theorem X2_friendships_stay_symmetric (ops : list (timestamp * op)) (d : db) :
  symmetric (friendships d) -> symmetric (friendships (run ops d)).
Proof.
  apply (run_invariant (fun d => symmetric (friendships d))).
  intros now auth s d0. apply grows_symmetric with (1 := exec_friendships now auth s d0).
Qed.

(** X3: no operation of the core removes or rewrites a friendship row: after
    every run the friendships table is the former table followed by new
    rows. *)
Theorem X3_friendships_only_grow (ops : list (timestamp * op)) (d : db) :
  exists more, friendships (run ops d) = friendships d ++ more.
Proof.
  revert d. induction ops as [|[now o] rest IH]; intros d; simpl.
  - exists []. now rewrite app_nil_r.
  - destruct (IH (step now o d)) as [m2 ->].
    assert (P : exists m1, friendships (step now o d) = friendships d ++ m1).
    { destruct (step_cases now o d) as [-> | (s & _ & ->)].
      - exists []. now rewrite app_nil_r.
      - eapply grows_prefix. apply exec_friendships. }
    destruct P as [m1 ->]. exists (m1 ++ m2). now rewrite app_assoc.
Qed.

Lemma request_step_In actors rs old q :
  Forall2 (request_step_by actors) rs old -> In q rs ->
  exists q', In q' old
    /\ FriendRequest.sender_id q' = FriendRequest.sender_id q
    /\ FriendRequest.receiver_id q' = FriendRequest.receiver_id q.
Proof.
  induction 1 as [|x y rs old R F IH]; intros Hq; [destruct Hq|].
  destruct Hq as [-> | Hq].
  - exists y. destruct R as (_ & S & Rc & _). split; [now left | auto].
  - destruct (IH Hq) as (q' & I & E). exists q'. split; [now right | exact E].
Qed.

Lemma exec_requests_old now auth s d :
  exists old more,
    friend_requests (snd (exec now auth s d)) = old ++ more
    /\ Forall2 (request_step_by [auth]) (friend_requests d) old.
Proof.
  destruct (exec_cases now auth s d) as [(d' & E & ->) | ->]; simpl.
  - destruct (run_stmt_requests _ _ _ _ E) as (old & more & Er & F & _).
    now exists old, more.
  - exists (friend_requests d), []. rewrite app_nil_r.
    split; [reflexivity | apply Forall2_same, request_step_by_refl].
Qed.

(** X4: if every stored edge joins the two parties of some stored friend
    request before a run of the core's operations, the same holds after it:
    the core creates friendships only between the sender and the receiver
    of a request. *)
Theorem X4_edges_backed_by_requests (ops : list (timestamp * op)) (d : db) :
  backed (friend_requests d) (friendships d) ->
  backed (friend_requests (run ops d)) (friendships (run ops d)).
Proof.
  apply (run_invariant (fun d => backed (friend_requests d) (friendships d))).
  intros now auth s d0 B.
  pose proof (grows_backed (exec_friendships now auth s d0) B) as B'.
  destruct (exec_requests_old now auth s d0) as (old & more & -> & F).
  intros u f H. destruct (B' u f H) as (q & Hq & P).
  destruct (@request_step_In _ _ _ q F Hq) as (q' & Hq' & Es & Er).
  exists q'. split; [apply in_app_iff; now left | now rewrite Es, Er].
Qed.

(** ** Requests and profiles along a run *)

Lemma request_step_by_trans as1 as2 q1 q2 q3 :
  request_step_by as1 q1 q2 -> request_step_by as2 q2 q3 ->
  request_step_by (as1 ++ as2) q1 q3.
Proof.
  unfold request_step_by.
  intros (I1 & S1 & R1 & C1 & W1) (I2 & S2 & R2 & C2 & W2).
  repeat split; try congruence.
  intros N. apply in_or_app.
  destruct (req_status_eqb (FriendRequest.status q2) (FriendRequest.status q1)) eqn:E.
  - right. rewrite <- R1. apply W2.
    destruct (FriendRequest.status q1), (FriendRequest.status q2),
      (FriendRequest.status q3); simpl in E; congruence.
  - left. apply W1.
    destruct (FriendRequest.status q1), (FriendRequest.status q2);
      simpl in E; congruence.
Qed.

Lemma requests_evolve_refl actors rs : requests_evolve actors rs rs.
Proof.
  exists rs, []. rewrite app_nil_r. split; [reflexivity|].
  split; [apply Forall2_same, request_step_by_refl | constructor].
Qed.

Lemma requests_evolve_trans as1 as2 rs1 rs2 rs3 :
  requests_evolve as1 rs1 rs2 -> requests_evolve as2 rs2 rs3 ->
  requests_evolve (as1 ++ as2) rs1 rs3.
Proof.
  intros (k1 & m1 & -> & F1 & N1) (k2 & m2 & -> & F2 & N2).
  apply Forall2_app_inv_l in F2. destruct F2 as (ka & kb & Fa & Fb & ->).
  exists ka, (kb ++ m2). split; [now rewrite app_assoc|]. split.
  - eapply Forall2_compose; [|exact F1|exact Fa].
    intros x y z. apply request_step_by_trans.
  - apply Forall_app. split.
    + eapply Forall2_Forall; [|exact Fb|exact N1].
      intros x y (_ & S & R & _) [I D]. rewrite S, R.
      split; [apply in_or_app; now left | exact D].
    + eapply Forall_impl; [|exact N2].
      intros q [I D]. split; [apply in_or_app; now right | exact D].
Qed.

Lemma step_requests now o d :
  requests_evolve [actor o] (friend_requests d) (friend_requests (step now o d)).
Proof.
  destruct (step_cases now o d) as [-> | (s & Hs & ->)];
    [apply requests_evolve_refl|].
  destruct (exec_cases now (actor o) s d) as [(d' & E & ->) | ->]; simpl;
    [|apply requests_evolve_refl].
  destruct (run_stmt_requests _ _ _ _ E) as (old & more & -> & F & Hm).
  exists old, more. split; [reflexivity|]. split; [exact F|].
  destruct Hm as [-> | (row & -> & Es & Ea & _)]; [constructor|].
  constructor; [|constructor].
  split; [now left|].
  subst s. destruct o as [u c| | | | |u [f|] c| |]; simpl in Hs;
    try contradiction.
  simpl in Ea. destruct Hs as (A & B & _). congruence.
Qed.

(** X5: along every run of the core's operations a stored friend request is
    never removed and keeps its id, sender, receiver and creation time; its
    status changes only in an operation run on behalf of its receiver; and
    every request the run adds was sent by one of its users to somebody
    else (never to oneself). *)
Theorem X5_requests_along_a_run (ops : list (timestamp * op)) (d : db) :
  requests_evolve (map (fun x => actor (snd x)) ops)
    (friend_requests d) (friend_requests (run ops d)).
Proof.
  revert d. induction ops as [|[now o] rest IH]; intros d; simpl.
  - apply requests_evolve_refl.
  - change (actor o :: map (fun x => actor (snd x)) rest)
      with ([actor o] ++ map (fun x => actor (snd x)) rest).
    eapply requests_evolve_trans; [apply step_requests | apply IH].
Qed.

Lemma kept_by_refl actors p : kept_by actors p p.
Proof. unfold kept_by. intuition. Qed.

Lemma kept_by_trans as1 as2 p1 p2 p3 :
  kept_by as1 p1 p2 -> kept_by as2 p2 p3 -> kept_by (as1 ++ as2) p1 p3.
Proof.
  unfold kept_by.
  intros (I1 & E1 & D1 & A1 & C1 & K1) (I2 & E2 & D2 & A2 & C2 & K2).
  repeat split; try congruence.
  intros N. rewrite in_app_iff in N.
  rewrite K2; [apply K1; tauto | rewrite I1; tauto].
Qed.

Lemma exec_profiles now auth s d :
  Forall2 (kept_by [auth]) (profiles d) (profiles (snd (exec now auth s d))).
Proof.
  destruct (exec_cases now auth s d) as [(d' & E & ->) | ->]; simpl.
  - eapply Forall2_impl; [|apply (run_stmt_profiles _ _ _ _ E)].
    intros p p'. apply kept_by_one.
  - apply Forall2_same, kept_by_refl.
Qed.

(** X6: along every run of the core's operations no profile row is added or
    removed, id, e-mail, display name, avatar and creation time of every
    profile stay as they were, and a profile row changes at all only if one
    of the run's operations ran on behalf of its owner. *)
Theorem X6_profiles_along_a_run (ops : list (timestamp * op)) (d : db) :
  Forall2 (kept_by (map (fun x => actor (snd x)) ops))
    (profiles d) (profiles (run ops d)).
Proof.
  revert d. induction ops as [|[now o] rest IH]; intros d; simpl.
  - apply Forall2_same, kept_by_refl.
  - change (actor o :: map (fun x => actor (snd x)) rest)
      with ([actor o] ++ map (fun x => actor (snd x)) rest).
    eapply Forall2_compose; [| |apply IH].
    + intros x y z. apply kept_by_trans.
    + destruct (step_cases now o d) as [-> | (s & _ & ->)].
      * apply Forall2_same, kept_by_refl.
      * apply exec_profiles.
Qed.

(** X7: an operation of the core sends at most one statement, on behalf of
    its own user and of its own kind: a friend-request insert addressed to
    somebody else, a status update of the given request, a read-flag update,
    a message insert carrying the trimmed, non-empty draft, or a presence
    write for the user's own row. *)
Theorem X7_one_statement_per_operation (now : timestamp) (o : op) (d : db) :
  journal (step now o d) = journal d
  \/ exists s, sends now o s
               /\ journal (step now o d)
                  = journal d ++ [mk_entry now (actor o) s].
Proof.
  destruct (step_cases now o d) as [-> | (s & Hs & ->)]; [now left|].
  right. exists s. split; [exact Hs | apply exec_journal].
Qed.

(** ** The contact list *)

Lemma loadFriends_In u d p :
  In p (Chat.loadFriends u d) <->
  In p (profiles d) /\ In (u, Profile.id p) (edges (friendships d)).
Proof.
  unfold Chat.loadFriends. rewrite filter_In, existsb_exists.
  split.
  - intros (Hp & x & Hx & E). split; [exact Hp|].
    apply Nat.eqb_eq in E. subst x.
    apply in_map_iff in Hx. destruct Hx as (e & Ef & He).
    apply filter_In in He. destruct He as (He & C).
    apply andb_true_iff in C. destruct C as [_ C]. apply Nat.eqb_eq in C.
    unfold edges. apply in_map_iff. exists e. split; [congruence | exact He].
  - intros (Hp & He). split; [exact Hp|].
    exists (Profile.id p). split; [|apply Nat.eqb_refl].
    unfold edges in He. apply in_map_iff in He. destruct He as (e & E & He).
    injection E as Eu Ef. apply in_map_iff. exists e.
    split; [exact Ef|].
    apply filter_In. split; [exact He|].
    unfold Chat.can_view_friendship. now rewrite Eu, !Nat.eqb_refl.
Qed.

Lemma NoDup_map_filter {A B : Type} (f : A -> B) (P : A -> bool) l :
  NoDup (map f l) -> NoDup (map f (filter P l)).
Proof.
  induction l as [|x l IH]; simpl; intros ND; [constructor|].
  inversion ND as [|y ys Nx ND']; subst.
  destruct (P x); simpl; [|now apply IH].
  constructor; [|now apply IH].
  intros H. apply Nx. apply in_map_iff in H. destruct H as (z & E & Hz).
  apply filter_In in Hz. apply in_map_iff. exists z. tauto.
Qed.

(** X8: [loadFriends] lists a profile exactly when the user owns an edge to
    it (an edge pointing the other way only puts nobody on the list), and
    lists no account twice, however many friendship rows there are, as long
    as profile ids are unique. *)
Theorem X8_loadFriends_lists_own_edges (user_id : uuid) (d : db) :
  (forall p, In p (Chat.loadFriends user_id d) <->
             In p (profiles d)
             /\ In (user_id, Profile.id p) (edges (friendships d)))
  /\ (NoDup (map Profile.id (profiles d)) ->
      NoDup (map Profile.id (Chat.loadFriends user_id d))).
Proof.
  split.
  - intros p. apply loadFriends_In.
  - unfold Chat.loadFriends. apply NoDup_map_filter.
Qed.

Lemma accept_by_receiver now d q :
  NoDup (map FriendRequest.id (friend_requests d)) ->
  In q (friend_requests d) ->
  FriendRequest.status q = pending ->
  references (profiles d) (FriendRequest.sender_id q) (FriendRequest.receiver_id q) ->
  exists l1 l2 fs',
    friend_requests d = l1 ++ q :: l2
    /\ ~ In (FriendRequest.id q) (map FriendRequest.id l1)
    /\ ~ In (FriendRequest.id q) (map FriendRequest.id l2)
    /\ adds_both (FriendRequest.sender_id q) (FriendRequest.receiver_id q)
         (friendships d) fs'
    /\ Sidebar.acceptRequest now (FriendRequest.receiver_id q)
         (FriendRequest.id q) d
       = ([toast_success "Friend request accepted!"],
          log now (FriendRequest.receiver_id q)
            (update_friend_request accepted (FriendRequest.id q))
            (mk_db (profiles d) (l1 ++ with_status accepted now q :: l2) fs'
               (messages d) (journal d))).
Proof.
  intros PK Hin St [RA RB].
  destruct (@NoDup_ids_split _ q PK Hin) as (l1 & l2 & E & N1 & N2).
  unfold Sidebar.acceptRequest.
  rewrite (@exec_update_request_hit now accepted d q l1 l2 E N1 N2).
  rewrite (@trigger_fires now (profiles d) q (friendships d) St).
  destruct (@create_friendship_cases now (profiles d)
              (with_status accepted now q) (friendships d) eq_refl)
    as [(fs' & C & AB) | (_ & P)].
  - rewrite C. exists l1, l2, fs'. repeat split; auto; apply AB.
  - simpl in P. rewrite RA, RB in P. discriminate.
Qed.

(** X9: once the receiver has accepted a pending request (both accounts
    existing), each party is on the other's contact list: [loadFriends] of
    the sender lists the receiver's profile and [loadFriends] of the
    receiver lists the sender's. *)
Theorem X9_accept_puts_both_on_contact_lists
    (now : timestamp) (d : db) (q : FriendRequest.t) (pA pB : Profile.t) :
  NoDup (map FriendRequest.id (friend_requests d)) ->
  In q (friend_requests d) ->
  FriendRequest.status q = pending ->
  In pA (profiles d) -> Profile.id pA = FriendRequest.sender_id q ->
  In pB (profiles d) -> Profile.id pB = FriendRequest.receiver_id q ->
  let d' := snd (Sidebar.acceptRequest now (FriendRequest.receiver_id q)
                   (FriendRequest.id q) d) in
  In pB (Chat.loadFriends (FriendRequest.sender_id q) d')
  /\ In pA (Chat.loadFriends (FriendRequest.receiver_id q) d').
Proof.
  intros PK Hin St HA EA HB EB d'.
  assert (R : references (profiles d) (FriendRequest.sender_id q)
                (FriendRequest.receiver_id q)).
  { split; unfold profile_exists; apply existsb_exists;
      [exists pA | exists pB]; (split; [assumption | now apply Nat.eqb_eq]). }
  destruct (@accept_by_receiver now d q PK Hin St R)
    as (l1 & l2 & fs' & _ & _ & _ & AB & E).
  subst d'. rewrite E. cbn [snd].
  destruct (adds_both_has AB) as [I1 I2].
  split; apply loadFriends_In; cbn [log profiles friendships];
    (split; [assumption|]); [now rewrite EB | now rewrite EA].
Qed.

Lemma loadRequests_rows u d :
  map fst (Chat.loadRequests u d)
  = filter (fun q => (FriendRequest.receiver_id q =? u)
                     && req_status_eqb (FriendRequest.status q) pending)
      (friend_requests d).
Proof.
  unfold Chat.loadRequests. rewrite map_map. simpl. rewrite map_id.
  apply filter_ext. intros q. unfold Chat.can_view_request.
  destruct (FriendRequest.receiver_id q =? u) eqn:E;
    [|now rewrite andb_false_r].
  apply Nat.eqb_eq in E. rewrite E, Nat.eqb_refl, orb_true_r. reflexivity.
Qed.

Lemma filter_other_ids (P : FriendRequest.t -> bool) i l :
  ~ In i (map FriendRequest.id l) ->
  filter (fun r => negb (FriendRequest.id r =? i)) (filter P l) = filter P l.
Proof.
  intros N. induction l as [|x l IH]; simpl; [reflexivity|].
  assert (Nx : (FriendRequest.id x =? i) = false).
  { apply Nat.eqb_neq. intros E. apply N. simpl. now left. }
  assert (Nl : ~ In i (map FriendRequest.id l))
    by (intros H; apply N; simpl; now right).
  destruct (P x); simpl; [rewrite Nx; simpl; f_equal|]; now apply IH.
Qed.

Lemma answered_leaves_list (P : FriendRequest.t -> bool) q q' l1 l2 :
  ~ In (FriendRequest.id q) (map FriendRequest.id l1) ->
  ~ In (FriendRequest.id q) (map FriendRequest.id l2) ->
  P q' = false ->
  filter P (l1 ++ q' :: l2)
  = filter (fun r => negb (FriendRequest.id r =? FriendRequest.id q))
      (filter P (l1 ++ q :: l2)).
Proof.
  intros N1 N2 Hq'. rewrite !filter_app. simpl. rewrite Hq'.
  rewrite filter_other_ids by exact N1. f_equal.
  destruct (P q); simpl; [rewrite Nat.eqb_refl; simpl|];
    now rewrite filter_other_ids.
Qed.

(** X10: when the receiver answers a request, by [rejectRequest] or (both
    accounts existing, the request pending) by [acceptRequest], exactly that
    request leaves the receiver's list of pending requests: [loadRequests]
    afterwards is the former list without the rows of that id. *)
Theorem X10_answered_request_leaves_pending_list
    (now : timestamp) (d : db) (q : FriendRequest.t) :
  NoDup (map FriendRequest.id (friend_requests d)) ->
  In q (friend_requests d) ->
  let B := FriendRequest.receiver_id q in
  let without := filter (fun r => negb (FriendRequest.id r =? FriendRequest.id q))
                   (map fst (Chat.loadRequests B d)) in
  map fst (Chat.loadRequests B
             (snd (Sidebar.rejectRequest now B (FriendRequest.id q) d)))
    = without
  /\ (FriendRequest.status q = pending ->
      references (profiles d) (FriendRequest.sender_id q) B ->
      map fst (Chat.loadRequests B
                 (snd (Sidebar.acceptRequest now B (FriendRequest.id q) d)))
        = without).
Proof.
  intros PK Hin B without. subst without. rewrite !loadRequests_rows.
  split.
  - destruct (@NoDup_ids_split _ q PK Hin) as (l1 & l2 & E & N1 & N2).
    subst B. rewrite (@reject_by_receiver now d q l1 l2 E N1 N2).
    cbn [snd log friend_requests]. rewrite E.
    apply answered_leaves_list; auto. simpl. apply andb_false_r.
  - intros St R.
    destruct (@accept_by_receiver now d q PK Hin St R)
      as (l1 & l2 & fs' & E & N1 & N2 & _ & Eq).
    subst B. rewrite Eq. cbn [snd log friend_requests]. rewrite E.
    apply answered_leaves_list; auto. simpl. apply andb_false_r.
Qed.

(** X11: a request that was sent appears on the receiver's list of pending
    requests, with the sender's profile attached, and not on the sender's
    own list, which stays as it was. *)
Theorem X11_sent_request_listed_for_receiver
    (now : timestamp) (A B : uuid) (e : string) (pA pB : Profile.t)
    (s : Sidebar.state) (d : db) :
  e <> ""%string ->
  single (filter (fun p => String.eqb (Profile.email p) e) (profiles d))
    = Some pB ->
  Profile.id pB = B ->
  A <> B ->
  find (fun p => Profile.id p =? A) (profiles d) = Some pA ->
  request_exists (friend_requests d) A B = false ->
  let d' := snd (Sidebar.sendFriendRequest now A (Sidebar.setSearchEmail e s) d) in
  (exists row,
     In (row, Some pA) (Chat.loadRequests B d')
     /\ FriendRequest.sender_id row = A
     /\ FriendRequest.receiver_id row = B
     /\ FriendRequest.status row = pending)
  /\ map fst (Chat.loadRequests A d') = map fst (Chat.loadRequests A d).
Proof.
  intros He Hr Hb Hab HA Ex d'.
  assert (PA : profile_exists (profiles d) A = true).
  { unfold profile_exists. apply existsb_exists. apply find_some in HA.
    exists pA. exact HA. }
  subst d'. rewrite (@send_new A B e pB He Hb Hab now); auto.
  cbn [snd]. split.
  - set (row := FriendRequest.mk
                  (gen_random_uuid (map FriendRequest.id (friend_requests d)))
                  A B pending now now).
    exists row. split; [|repeat split].
    unfold Chat.loadRequests. cbn [log friend_requests profiles].
    apply in_map_iff. exists row. split.
    + cbn [row FriendRequest.sender_id]. rewrite HA. reflexivity.
    + apply filter_In. split; [apply in_app_iff; right; now left|].
      unfold Chat.can_view_request. simpl.
      now rewrite !Nat.eqb_refl, orb_true_r.
  - rewrite !loadRequests_rows. cbn [log friend_requests].
    rewrite filter_app. simpl.
    assert (N : (B =? A) = false) by (apply Nat.eqb_neq; congruence).
    rewrite N. simpl. apply app_nil_r.
Qed.

(** X12: for a non-empty address, [sendFriendRequest] answers "User not
    found" exactly when the number of profiles with that e-mail is not one
    (none, or several: [.single()] refuses both), and then it sends nothing
    and the datastore is as before. *)
Theorem X12_user_not_found
    (now : timestamp) (currentUserId : uuid) (s : Sidebar.state) (d : db) :
  Sidebar.searchEmail s <> ""%string ->
  let n := List.length
             (filter (fun p => String.eqb (Profile.email p) (Sidebar.searchEmail s))
                (profiles d)) in
  let out := Sidebar.sendFriendRequest now currentUserId s d in
  (fst (fst out) = [toast_error "User not found"] <-> n <> 1)
  /\ (n <> 1 -> snd out = d).
Proof.
  intros He n out. subst n out. unfold Sidebar.sendFriendRequest.
  apply String.eqb_neq in He. rewrite He.
  destruct (filter _ (profiles d)) as [|p [|p' l]]; cbn [single List.length fst snd].
  - split; [split; [intros _; discriminate | reflexivity] | reflexivity].
  - split; [|intros N; now elim N].
    split; [|intros N; now elim N]. intros H. exfalso. revert H.
    destruct (Profile.id p =? currentUserId); [discriminate|].
    unfold exec, run_stmt.
    destruct (negb _); [discriminate|].
    destruct (request_exists _ _ _); [discriminate|].
    destruct (negb _); discriminate.
  - split; [split; [intros _; discriminate | reflexivity] | reflexivity].
Qed.

(** X13: accepting a request a second time reports success again and
    creates nothing: the friendships stay exactly as the first accept left
    them (no duplicate edge) and the request stays [accepted], only its
    [updated_at] is restamped. *)
Theorem X13_accept_twice
    (now1 now2 : timestamp) (d : db) (q : FriendRequest.t) :
  NoDup (map FriendRequest.id (friend_requests d)) ->
  In q (friend_requests d) ->
  FriendRequest.status q = pending ->
  references (profiles d) (FriendRequest.sender_id q) (FriendRequest.receiver_id q) ->
  let B := FriendRequest.receiver_id q in
  let d1 := snd (Sidebar.acceptRequest now1 B (FriendRequest.id q) d) in
  let out2 := Sidebar.acceptRequest now2 B (FriendRequest.id q) d1 in
  fst out2 = [toast_success "Friend request accepted!"]
  /\ friendships (snd out2) = friendships d1
  /\ find_request (FriendRequest.id q) (friend_requests (snd out2))
     = Some (with_status accepted now2 q).
Proof.
  intros PK Hin St R B d1 out2.
  destruct (@accept_by_receiver now1 d q PK Hin St R)
    as (l1 & l2 & fs' & E & N1 & N2 & _ & Eq).
  subst out2 d1 B. rewrite Eq. cbn [snd].
  set (q1 := with_status accepted now1 q).
  set (d1 := log _ _ _ _).
  assert (E1 : friend_requests d1 = l1 ++ q1 :: l2) by reflexivity.
  unfold Sidebar.acceptRequest.
  change (FriendRequest.receiver_id q) with (FriendRequest.receiver_id q1).
  change (FriendRequest.id q) with (FriendRequest.id q1).
  rewrite (@exec_update_request_hit now2 accepted d1 q1 l1 l2 E1 N1 N2).
  rewrite trigger_silent by (right; discriminate).
  cbn [fst snd log friendships friend_requests].
  repeat split.
  change (FriendRequest.id q1) with (FriendRequest.id q).
  apply find_request_split; [exact N1 | reflexivity].
Qed.

(** ** The conversation, once more *)

Lemma same_pairb_comm a b m : same_pairb a b m = same_pairb b a m.
Proof. unfold same_pairb. apply orb_comm. Qed.

Lemma sorted_perm_unique l1 : forall l2,
  StronglySorted created_le l1 -> StronglySorted created_le l2 ->
  Permutation l1 l2 -> NoDup (map Message.created_at l1) -> l1 = l2.
Proof.
  induction l1 as [|a l1 IH]; intros l2 S1 S2 P ND.
  - apply Permutation_nil in P. now subst.
  - destruct l2 as [|b l2];
      [apply Permutation_sym, Permutation_nil in P; discriminate|].
    apply StronglySorted_inv in S1. destruct S1 as [S1 F1].
    apply StronglySorted_inv in S2. destruct S2 as [S2 F2].
    inversion ND as [|k ks Nk ND']; subst.
    assert (E : a = b).
    { assert (Ia : In a (b :: l2))
        by (apply (Permutation_in _ P); now left).
      assert (Ib : In b (a :: l1))
        by (apply (Permutation_in _ (Permutation_sym P)); now left).
      destruct Ia as [-> | Ia]; [reflexivity|].
      destruct Ib as [-> | Ib]; [reflexivity|].
      rewrite Forall_forall in F1, F2.
      pose proof (F1 b Ib) as L1. pose proof (F2 a Ia) as L2.
      unfold created_le in L1, L2.
      exfalso. apply Nk.
      replace (Message.created_at a) with (Message.created_at b) by lia.
      now apply in_map. }
    subst b. f_equal. apply IH; auto.
    now apply Permutation_cons_inv in P.
Qed.

Lemma loadMessages_shown tie now A friend s d :
  ChatArea.messages (fst (ChatArea.loadMessages tie now A friend s d))
  = order_by_created_at tie
      (filter (same_pairb A (Profile.id friend)) (messages d)).
Proof.
  unfold ChatArea.loadMessages. rewrite select_conversation.
  destruct (0 <? _); reflexivity.
Qed.

(** X14: both parties load the same conversation: what [loadMessages] shows
    to A with friend B holds the same rows as what it shows to B with friend
    A on the same datastore, and the two lists are equal, row for row in
    the same order, when no two of these messages have the same
    [created_at] (among ties each query has an order of its own). *)
Theorem X14_both_parties_load_the_same
    (tieA tieB : tie_order) (now now' : timestamp) (A B : uuid)
    (friendA friendB : Profile.t) (s s' : ChatArea.state) (d : db) :
  Profile.id friendA = A -> Profile.id friendB = B ->
  let shownA := ChatArea.messages
                  (fst (ChatArea.loadMessages tieA now A friendB s d)) in
  let shownB := ChatArea.messages
                  (fst (ChatArea.loadMessages tieB now' B friendA s' d)) in
  Permutation shownA shownB
  /\ (NoDup (map Message.created_at shownA) -> shownA = shownB).
Proof.
  intros EA EB shownA shownB. subst shownA shownB.
  rewrite !loadMessages_shown, EA, EB.
  assert (E : filter (same_pairb B A) (messages d)
              = filter (same_pairb A B) (messages d))
    by (apply filter_ext; intros m; apply same_pairb_comm).
  rewrite E.
  assert (P : Permutation
                (order_by_created_at tieA (filter (same_pairb A B) (messages d)))
                (order_by_created_at tieB (filter (same_pairb A B) (messages d)))).
  { rewrite !order_by_created_at_perm. reflexivity. }
  split; [exact P|]. intros ND.
  apply sorted_perm_unique; auto; apply order_by_created_at_sorted.
Qed.

Lemma filter_map_swap {A : Type} (P : A -> bool) (g : A -> A) l :
  (forall x, P (g x) = P x) -> filter P (map g l) = map g (filter P l).
Proof.
  intros H. induction l as [|x l IH]; simpl; [reflexivity|].
  rewrite H. destruct (P x); simpl; now rewrite IH.
Qed.

Lemma loaded_In tie a b d m :
  In m (order_by_created_at tie (filter (same_pairb a b) (messages d))) <->
  In m (messages d) /\ same_pairb a b m = true.
Proof.
  rewrite <- filter_In. split; apply Permutation_in;
    [|symmetry]; apply order_by_created_at_perm.
Qed.

(** Where [loadMessages] leaves the datastore: every shown message addressed
    to the user is stored read. *)
Lemma loadMessages_marks tie now A friend s d m :
  In m (ChatArea.messages (fst (ChatArea.loadMessages tie now A friend s d))) ->
  Message.receiver_id m = A ->
  In (set_read m) (messages (snd (ChatArea.loadMessages tie now A friend s d))).
Proof.
  unfold ChatArea.loadMessages. rewrite select_conversation.
  set (data := order_by_created_at _ _).
  set (unreadIds := map Message.id _).
  intros Hm Hr.
  assert (Hm' : In m data) by (destruct (0 <? _); exact Hm). clear Hm.
  assert (Hd : In m (messages d)) by (now apply loaded_In in Hm').
  assert (Hun : Message.read m = false -> In (Message.id m) unreadIds).
  { intros Hf. apply in_map. apply filter_In. split; [exact Hm'|].
    now rewrite Hr, Nat.eqb_refl, Hf. }
  destruct (0 <? List.length unreadIds) eqn:E; cbn [snd].
  - unfold exec, run_stmt. cbn [snd log messages].
    apply update_read_marks; auto.
    intros Hf. apply existsb_exists. exists (Message.id m).
    split; [now apply Hun | apply Nat.eqb_refl].
  - destruct (Message.read m) eqn:R.
    + now rewrite (set_read_of_read _ R).
    + specialize (Hun eq_refl). apply Nat.ltb_ge in E.
      destruct unreadIds; [destruct Hun | simpl in E; lia].
Qed.

(** The stored messages after a load are the former ones, row by row, each
    as it was or marked read, and those of the conversation addressed to the
    user are read. *)
Lemma loadMessages_store tie now A friend s d :
  exists g : Message.t -> Message.t,
    messages (snd (ChatArea.loadMessages tie now A friend s d))
      = map g (messages d)
    /\ (forall x, g x = x \/ g x = set_read x)
    /\ (forall x, In x (messages d) ->
          same_pairb A (Profile.id friend) x = true ->
          Message.receiver_id x = A -> Message.read (g x) = true).
Proof.
  unfold ChatArea.loadMessages. rewrite select_conversation.
  set (data := order_by_created_at _ _).
  set (unreadIds := map Message.id _).
  assert (I : forall x, In x (messages d) ->
            same_pairb A (Profile.id friend) x = true ->
            Message.receiver_id x = A -> Message.read x = false ->
            In (Message.id x) unreadIds).
  { intros x Hx Px Rx R. apply in_map. apply filter_In. split.
    - apply loaded_In. auto.
    - now rewrite Rx, Nat.eqb_refl, R. }
  destruct (0 <? List.length unreadIds) eqn:L; cbn [snd].
  - unfold exec, run_stmt. cbn [snd log messages].
    eexists. split; [reflexivity|]. split.
    + intros x. cbv beta. destruct (_ && _); auto.
    + intros x Hx Px Rx. cbv beta.
      destruct (Message.read x) eqn:R.
      * destruct (_ && _); [reflexivity | exact R].
      * assert (S : existsb (Nat.eqb (Message.id x)) unreadIds = true).
        { apply existsb_exists. exists (Message.id x).
          split; [now apply I | apply Nat.eqb_refl]. }
        rewrite S. unfold can_update_message. rewrite Rx, Nat.eqb_refl.
        reflexivity.
  - exists (fun x => x). split; [now rewrite map_id|]. split; [auto|].
    intros x Hx Px Rx. destruct (Message.read x) eqn:R; [reflexivity|].
    specialize (I x Hx Px Rx R). apply Nat.ltb_ge in L.
    destruct unreadIds; [destruct I | simpl in L; lia].
Qed.

(** X15: loading the same conversation again, with nothing else in between,
    sends nothing and leaves the datastore as the first load left it; it
    shows the messages of the same ids (in an order that may differ among
    ties), every one addressed to the user now with [read = true]. *)
Theorem X15_second_load_is_silent
    (tie1 tie2 : tie_order) (now now' : timestamp) (A : uuid)
    (friend : Profile.t) (s : ChatArea.state) (d : db) :
  let out1 := ChatArea.loadMessages tie1 now A friend s d in
  let out2 := ChatArea.loadMessages tie2 now' A friend (fst out1) (snd out1) in
  snd out2 = snd out1
  /\ Permutation (map Message.id (ChatArea.messages (fst out2)))
       (map Message.id (ChatArea.messages (fst out1)))
  /\ Forall (fun m => Message.receiver_id m = A -> Message.read m = true)
       (ChatArea.messages (fst out2)).
Proof.
  set (B := Profile.id friend).
  pose proof (loadMessages_shown tie1 now A friend s d) as E1. fold B in E1.
  destruct (loadMessages_store tie1 now A friend s d) as (g & Eg & Hg & Hread).
  fold B in Hread.
  intros out1. fold out1 in E1, Eg.
  set (data1 := ChatArea.messages (fst out1)) in *.
  set (s1 := fst out1). set (d1 := snd out1) in *. clearbody out1 d1 s1 data1.
  assert (Gid : forall x, Message.id (g x) = Message.id x)
    by (intros x; destruct (Hg x) as [-> | ->]; reflexivity).
  assert (Gpair : forall x, same_pairb A B (g x) = same_pairb A B x)
    by (intros x; destruct (Hg x) as [-> | ->]; reflexivity).
  assert (Grcv : forall x, Message.receiver_id (g x) = Message.receiver_id x)
    by (intros x; destruct (Hg x) as [-> | ->]; reflexivity).
  set (rows := filter (same_pairb A B) (messages d)) in *.
  set (data2 := select_messages tie2 A (ChatArea.conversation A B) d1).
  assert (P2 : Permutation data2 (map g rows)).
  { subst data2. rewrite select_conversation, Eg, filter_map_swap by exact Gpair.
    apply order_by_created_at_perm. }
  assert (R2 : Forall (fun m => Message.receiver_id m = A -> Message.read m = true)
                 data2).
  { eapply Permutation_Forall; [symmetry; exact P2|].
    apply Forall_forall. intros m' Hm'. apply in_map_iff in Hm'.
    destruct Hm' as (x & <- & Hx). rewrite Grcv. intros Rx.
    apply filter_In in Hx. destruct Hx. now apply Hread. }
  assert (U2 : filter (fun m => (Message.receiver_id m =? A)
                                && negb (Message.read m)) data2 = []).
  { clear -R2. induction data2 as [|m l IH]; [reflexivity|].
    inversion R2 as [|? ? Hm Hl]; subst. simpl.
    destruct (Message.receiver_id m =? A) eqn:E; simpl; [|now apply IH].
    apply Nat.eqb_eq in E. rewrite (Hm E). simpl. now apply IH. }
  intros out2. subst out2. unfold ChatArea.loadMessages.
  fold B. fold data2. rewrite U2.
  cbn [map List.length Nat.ltb Nat.leb fst snd ChatArea.messages].
  split; [reflexivity|]. split; [|exact R2].
  rewrite P2, map_map, E1, order_by_created_at_perm.
  erewrite map_ext; [reflexivity | exact Gid].
Qed.

(** ** Drafts *)

Lemma trimStart_all_white s : all_white s -> trimStart s = [].
Proof.
  induction 1 as [|c s Hc Hs IH]; simpl; [reflexivity|]. now rewrite Hc.
Qed.

Lemma trim_nil_iff s : trim s = [] <-> all_white s.
Proof.
  split.
  - intros E. destruct (trim_stripped s) as (l & r & Es & Wl & Wr & _).
    rewrite E in Es. rewrite Es. simpl. apply Forall_app. now split.
  - intros W. unfold trim. now rewrite (trimStart_all_white W).
Qed.

Lemma trimStart_clean_id s : starts_clean s -> trimStart s = s.
Proof. destruct s as [|c s]; simpl; [reflexivity|]. now intros ->. Qed.

Lemma trim_idempotent s : trim (trim s) = trim s.
Proof.
  destruct (trim_stripped s) as (_ & _ & _ & _ & _ & C1 & C2).
  unfold trim at 1. rewrite (trimStart_clean_id _ C1).
  unfold trimEnd. rewrite (trimStart_clean_id _ C2). apply rev_involutive.
Qed.

(** X16: with a friend selected and no send in flight, [sendMessage] drops
    the draft silently (no toast, nothing sent, component and datastore as
    before) exactly when the draft consists of white-space code units only,
    the empty draft included. *)
Theorem X16_draft_dropped_iff_all_white
    (now : timestamp) (currentUserId : uuid) (friend : Profile.t)
    (s : ChatArea.state) (d : db) :
  ChatArea.sending s = false ->
  let out := ChatArea.sendMessage now currentUserId (Some friend) s d in
  (snd out = d <-> all_white (ChatArea.newMessage s))
  /\ (all_white (ChatArea.newMessage s) ->
      fst (fst out) = [] /\ snd (fst out) = s).
Proof.
  intros Hs out. subst out. unfold ChatArea.sendMessage.
  rewrite Hs, orb_false_r.
  destruct (trim (ChatArea.newMessage s)) as [|c t] eqn:Et; cbn [falsy].
  - apply trim_nil_iff in Et. cbn [fst snd]. tauto.
  - assert (N : ~ all_white (ChatArea.newMessage s)).
    { intros W. apply trim_nil_iff in W. congruence. }
    split; [|tauto]. split; [|tauto]. intros E. exfalso.
    assert (J := exec_journal now currentUserId
                   (insert_message currentUserId (Profile.id friend) (c :: t)) d).
    destruct (exec _ _ _ _) as [[|e] d']; cbn [snd] in *; subst d';
      now apply app_one_neq in J.
Qed.

Lemma run_invariant_step (I : db -> Prop) :
  (forall now o d, I d -> I (step now o d)) ->
  forall ops d, I d -> I (run ops d).
Proof.
  intros H ops. induction ops as [|[now o] rest IH]; intros d Hd; simpl; auto.
Qed.

(** X17: no operation of the core stores an empty or untrimmed message: if
    the content of every stored message is non-empty and has no white space
    at either end (is its own [trim]) before a run, the same holds after
    it, and the content of a stored message is never changed. *)
Theorem X17_stored_content_stays_trimmed (ops : list (timestamp * op)) (d : db) :
  Forall (fun m => Message.content m <> []
                   /\ trim (Message.content m) = Message.content m)
    (messages d) ->
  Forall (fun m => Message.content m <> []
                   /\ trim (Message.content m) = Message.content m)
    (messages (run ops d)).
Proof.
  apply (run_invariant_step
           (fun d => Forall (fun m => Message.content m <> []
                               /\ trim (Message.content m) = Message.content m)
                       (messages d))).
  intros now o d0 H.
  destruct (step_cases now o d0) as [-> | (s & Hs & ->)]; [exact H|].
  destruct (exec_cases now (actor o) s d0) as [(d' & E & ->) | ->];
    cbn [log messages]; [|exact H].
  destruct (run_stmt_messages_rows _ _ _ _ E) as (old & more & -> & F & Hm).
  apply Forall_app. split.
  - eapply Forall2_Forall; [|exact F|exact H].
    intros x y (_ & _ & _ & C & _) P. now rewrite C.
  - destruct Hm as [-> | (row & -> & Es & _)]; [constructor|].
    constructor; [|constructor].
    subst s. destruct o as [| | | | |u [f|] c| |]; simpl in Hs;
      try contradiction.
    destruct Hs as (_ & _ & T & N). split; [exact N|].
    rewrite T. apply trim_idempotent.
Qed.


(** X19: a message sent by A to B is there when B loads the conversation:
    for a non-blank draft whose trimmed text can be stored, both accounts
    existing, the list shown to B contains a row from A to B whose content
    is the trimmed draft, and after the load the datastore holds that row
    with [read = true]. *)
Theorem X19_sent_message_is_loaded_and_read
    (tie : tie_order) (now now' : timestamp) (A B : uuid)
    (friendA friendB : Profile.t) (s sB : ChatArea.state) (d : db) :
  Profile.id friendA = A -> Profile.id friendB = B ->
  ChatArea.sending s = false ->
  trim (ChatArea.newMessage s) <> [] ->
  storable_text (trim (ChatArea.newMessage s)) = true ->
  references (profiles d) A B ->
  let d1 := snd (ChatArea.sendMessage now A (Some friendB) s d) in
  let out := ChatArea.loadMessages tie now' B friendA sB d1 in
  exists row stored,
    In row (ChatArea.messages (fst out))
    /\ Message.sender_id row = A /\ Message.receiver_id row = B
    /\ Message.content row = trim (ChatArea.newMessage s)
    /\ In stored (messages (snd out))
    /\ read_copy row stored.
Proof.
  intros EA EB Hs Ht Hst [RA RB] d1 out.
  set (row := Message.mk (gen_random_uuid (map Message.id (messages d))) A B
                (trim (ChatArea.newMessage s)) false now).
  assert (E1 : messages d1 = messages d ++ [row]).
  { subst d1. unfold ChatArea.sendMessage. rewrite Hs, orb_false_r.
    destruct (trim (ChatArea.newMessage s)) as [|c t] eqn:Et; [congruence|].
    cbn [falsy]. unfold exec, run_stmt.
    rewrite Hst, EB, Nat.eqb_refl, RA, RB. reflexivity. }
  assert (I : In row (ChatArea.messages (fst out))).
  { subst out. rewrite loadMessages_shown, EA. apply loaded_In.
    rewrite E1. split; [apply in_app_iff; right; now left|].
    unfold same_pairb. simpl. now rewrite !Nat.eqb_refl, orb_true_r. }
  exists row, (set_read row). split; [exact I|]. repeat split.
  subst out. now apply loadMessages_marks.
Qed.

Lemma run_stmt_messages_appended now auth s d d' :
  (forall ids, s <> update_messages_read_in ids) ->
  (forall i, s <> update_messages_read_eq i) ->
  run_stmt now auth s d = Commit d' ->
  exists more, messages d' = messages d ++ more.
Proof.
  intros N1 N2.
  assert (Same : messages d' = messages d -> exists more, messages d' = messages d ++ more)
    by (intros ->; exists []; now rewrite app_nil_r).
  destruct s; simpl.
  - destruct (negb _); [discriminate|]. destruct (request_exists _ _ _);
      [discriminate|]. destruct (negb _); [discriminate|].
    intros H; inversion H; subst d'. now apply Same.
  - destruct (update_requests _ _ _ _ _ _ _); simpl; [|discriminate].
    intros H; inversion H; subst d'. now apply Same.
  - destruct (negb _); [discriminate|]. destruct (negb _); [discriminate|].
    destruct (negb _); [discriminate|].
    intros H; inversion H; subst d'. simpl. eexists. reflexivity.
  - now elim (N1 in_ids).
  - now elim (N2 eq_id).
  - intros H; inversion H; subst d'. now apply Same.
Qed.

(** X20: only [loadMessages] changes a stored message: every other operation
    of the core, the live handler included (its read update is built and
    never awaited), leaves the stored messages as they are, read flags
    included, and at most appends new rows. *)
Theorem X20_only_loadMessages_changes_messages
    (now : timestamp) (o : op) (d : db) :
  (forall tie u f s, o <> op_loadMessages tie u f s) ->
  exists more, messages (step now o d) = messages d ++ more.
Proof.
  intros N.
  destruct (step_cases now o d) as [-> | (s & Hs & ->)];
    [exists []; now rewrite app_nil_r|].
  destruct (exec_cases now (actor o) s d) as [(d' & E & ->) | ->];
    cbn [log messages]; [|exists []; now rewrite app_nil_r].
  apply (@run_stmt_messages_appended now (actor o) s d d'); [| |exact E].
  - intros ids ->. destruct o as [| | |tie u f c| |u [f|] c| |]; simpl in Hs;
      try contradiction. now apply (N tie u f c).
  - intros i ->. destruct o as [| | | | |u [f|] c| |]; simpl in Hs; contradiction.
Qed.

(** ** Sign-up *)

(** X21: [split_part(s, '@', 1)], the default display name: it is the part of
    [s] before the first delimiter: it contains no delimiter, and [s] is
    that part followed by nothing (no delimiter in [s]: the whole of [s]) or
    by the delimiter and a remainder. *)
Theorem X21_split_part_is_the_part_before (delim : ascii) (s : string) :
  ~ In delim (list_ascii_of_string (split_part_1 delim s))
  /\ exists rest,
       s = (split_part_1 delim s ++ rest)%string
       /\ (rest = EmptyString \/ exists r, rest = String delim r).
Proof.
  induction s as [|c s [N (rest & E & R)]]; simpl.
  - split; [tauto|]. exists EmptyString. auto.
  - destruct (Ascii.eqb c delim) eqn:C.
    + apply Ascii.eqb_eq in C. subst c. simpl. split; [tauto|].
      exists (String delim s). split; [reflexivity | right; now exists s].
    + apply Ascii.eqb_neq in C. simpl. split; [intros [H|H]; congruence|].
      exists rest. split; [now rewrite <- E | exact R].
Qed.

Lemma profile_exists_In ps u :
  profile_exists ps u = true <-> In u (map Profile.id ps).
Proof.
  unfold profile_exists. rewrite existsb_exists, in_map_iff.
  split; intros (p & H1 & H2); exists p.
  - apply Nat.eqb_eq in H2. tauto.
  - split; [tauto | now apply Nat.eqb_eq].
Qed.

Lemma profile_exists_app ps qs u :
  profile_exists ps u = true -> profile_exists (ps ++ qs) u = true.
Proof.
  unfold profile_exists. rewrite existsb_app. intros ->. reflexivity.
Qed.

Lemma sign_up_cases now NEW d :
  (exists mail,
     au_email NEW = Some mail
     /\ profile_exists (profiles d) (au_id NEW) = false
     /\ sign_up now NEW d
        = (PgOk,
           mk_db (profiles d ++
                    [Profile.mk (au_id NEW) mail
                       (Some (coalesce (au_display_name NEW)
                                (split_part_1 "@" mail)))
                       None "offline" now now now])
             (friend_requests d) (friendships d) (messages d) (journal d)))
  \/ ((au_email NEW = None \/ profile_exists (profiles d) (au_id NEW) = true)
      /\ exists e, sign_up now NEW d = (PgError e, d)).
Proof.
  unfold sign_up, handle_new_user.
  destruct (au_email NEW) as [mail|]; [|right; split; [now left | eexists; reflexivity]].
  destruct (profile_exists (profiles d) (au_id NEW)) eqn:P.
  - right. split; [now right | eexists; reflexivity].
  - left. exists mail. auto.
Qed.

(** X22: a sign-up keeps the declared constraints: whether the trigger
    inserts the profile or the sign-up is rolled back, primary keys, UNIQUE
    pairs and foreign keys hold afterwards if they held before. *)
Theorem X22_sign_up_keeps_constraints (now : timestamp) (NEW : auth_user) (d : db) :
  constraints d -> constraints (snd (sign_up now NEW d)).
Proof.
  intros C.
  destruct (sign_up_cases now NEW d) as [(mail & _ & P & ->) | (_ & e & ->)];
    [|exact C].
  destruct C as (Pp & Pr & Up & Pf & Ue & Pm & Fr & Ff & Fm).
  unfold constraints. cbn [snd profiles friend_requests friendships messages].
  assert (R : forall a b, references (profiles d) a b ->
                references (profiles d ++
                  [Profile.mk (au_id NEW) mail
                     (Some (coalesce (au_display_name NEW) (split_part_1 "@" mail)))
                     None "offline" now now now]) a b).
  { intros a b [Ha Hb]. split; now apply profile_exists_app. }
  repeat split; auto.
  - rewrite map_app. simpl. apply NoDup_snoc; [exact Pp|].
    rewrite <- profile_exists_In. congruence.
  - eapply Forall_impl; [|exact Fr]. intros q. apply R.
  - eapply Forall_impl; [|exact Ff]. intros q. apply R.
  - eapply Forall_impl; [|exact Fm]. intros q. apply R.
Qed.

(** X23: a sign-up succeeds exactly when the new user has an e-mail address
    and no profile with that id exists yet.  Then one profile row is added:
    offline, without avatar, with the given display name or, when none was
    given, the part of the address before the first "@"; nothing else
    changes.  Otherwise the datastore is as before. *)
Theorem X23_sign_up_outcome (now : timestamp) (NEW : auth_user) (d : db) :
  let out := sign_up now NEW d in
  (fst out = PgOk <->
   au_email NEW <> None /\ profile_exists (profiles d) (au_id NEW) = false)
  /\ (fst out <> PgOk -> snd out = d)
  /\ (fst out = PgOk ->
      exists mail p,
        au_email NEW = Some mail
        /\ profiles (snd out) = profiles d ++ [p]
        /\ Profile.id p = au_id NEW
        /\ Profile.email p = mail
        /\ Profile.status p = "offline"%string
        /\ Profile.avatar_url p = None
        /\ Profile.display_name p
           = Some (match au_display_name NEW with
                   | Some name => name
                   | None => split_part_1 "@" mail
                   end)
        /\ friend_requests (snd out) = friend_requests d
        /\ friendships (snd out) = friendships d
        /\ messages (snd out) = messages d).
Proof.
  intros out. subst out.
  destruct (sign_up_cases now NEW d) as [(mail & Em & P & ->) | (H & e & ->)];
    cbn [fst snd].
  - split; [split; [intros _; split; congruence | reflexivity]|].
    split; [congruence|]. intros _.
    eexists mail, _. split; [exact Em|]. split; [reflexivity|].
    repeat split.
  - split; [|split; [reflexivity | discriminate]].
    split; [discriminate|]. intros [N P]. destruct H; congruence.
Qed.

(** X24: a newly signed-up account can be found by its address: if no other
    profile has that (non-empty) e-mail address, a friend request that an
    existing other user sends to it right after the sign-up succeeds. *)
Theorem X24_new_account_can_be_found
    (now now' : timestamp) (NEW : auth_user) (mail : string) (A : uuid)
    (s : Sidebar.state) (d : db) :
  constraints d ->
  au_email NEW = Some mail ->
  mail <> ""%string ->
  profile_exists (profiles d) (au_id NEW) = false ->
  (forall p, In p (profiles d) -> Profile.email p <> mail) ->
  profile_exists (profiles d) A = true ->
  let d1 := snd (sign_up now NEW d) in
  let out := Sidebar.sendFriendRequest now' A (Sidebar.setSearchEmail mail s) d1 in
  fst (fst out) = [toast_success "Friend request sent!"]
  /\ exists row,
       friend_requests (snd out) = friend_requests d ++ [row]
       /\ FriendRequest.sender_id row = A
       /\ FriendRequest.receiver_id row = au_id NEW
       /\ FriendRequest.status row = pending.
Proof.
  intros C Em Hm P Hfree HA d1 out.
  destruct (sign_up_cases now NEW d) as [(mail' & Em' & _ & E) | ([H|H] & _)];
    [|congruence|congruence].
  assert (mail' = mail) by congruence. subst mail'.
  set (pN := Profile.mk (au_id NEW) mail
               (Some (coalesce (au_display_name NEW) (split_part_1 "@" mail)))
               None "offline" now now now) in *.
  assert (AN : A <> au_id NEW) by (intros ->; congruence).
  assert (F0 : filter (fun p => String.eqb (Profile.email p) mail) (profiles d) = []).
  { clear -Hfree. induction (profiles d) as [|p l IH]; [reflexivity|]. simpl.
    assert (N : String.eqb (Profile.email p) mail = false)
      by (apply String.eqb_neq; apply Hfree; now left).
    rewrite N. apply IH. intros q Hq. apply Hfree. now right. }
  assert (Rs : resolves mail pN d1).
  { subst d1. rewrite E. unfold resolves. cbn [snd profiles].
    rewrite filter_app, F0. simpl. now rewrite String.eqb_refl. }
  assert (HA1 : profile_exists (profiles d1) A = true).
  { subst d1. rewrite E. cbn [snd profiles]. now apply profile_exists_app. }
  assert (Nx : request_exists (friend_requests d1) A (au_id NEW) = false).
  { subst d1. rewrite E. cbn [snd friend_requests].
    destruct (request_exists (friend_requests d) A (au_id NEW)) eqn:X;
      [|reflexivity].
    exfalso. apply request_exists_pairs in X. unfold pairs in X.
    apply in_map_iff in X. destruct X as (q & Eq & Hq).
    destruct C as (_ & _ & _ & _ & _ & _ & Fr & _).
    rewrite Forall_forall in Fr. destruct (Fr q Hq) as [_ Rb].
    injection Eq as _ Er. congruence. }
  subst out.
  rewrite (@send_new A (au_id NEW) mail pN Hm eq_refl AN now'
             (Sidebar.setSearchEmail mail s) d1 eq_refl Rs HA1 Nx).
  cbn [fst snd log friend_requests]. split; [reflexivity|].
  eexists. split; [subst d1; rewrite E; reflexivity|]. repeat split.
Qed.

(** ** Instances *)

Ltac concrete :=
  repeat (first [ progress simpl | constructor | split ]);
  try solve [ intuition (try discriminate; try congruence; try lia) ].

(** X1 on the example day. *)
Lemma X1_constraints_kept_witness :
  constraints db0 /\ constraints (run day db0).
Proof.
  assert (H : constraints db0) by (unfold constraints; concrete).
  split; [exact H | exact (@X1_constraints_kept day db0 H)].
Defined.

(** X2 on the example day. *)
Lemma X2_friendships_stay_symmetric_witness :
  symmetric (friendships db0)
  /\ edges (friendships (run day db0)) = [(alice, bob); (bob, alice)]
  /\ symmetric (friendships (run day db0)).
Proof.
  assert (H : symmetric (friendships db0)) by (intros u f I; destruct I).
  split; [exact H|]. split; [reflexivity|].
  exact (@X2_friendships_stay_symmetric day db0 H).
Defined.

(** X4 on the example day. *)
Lemma X4_edges_backed_by_requests_witness :
  backed (friend_requests db0) (friendships db0)
  /\ backed (friend_requests (run day db0)) (friendships (run day db0)).
Proof.
  assert (H : backed (friend_requests db0) (friendships db0))
    by (intros u f I; destruct I).
  split; [exact H | exact (@X4_edges_backed_by_requests day db0 H)].
Defined.

(** X9 at bob accepting alice's request. *)
Lemma X9_accept_puts_both_on_contact_lists_witness :
  (NoDup (map FriendRequest.id (friend_requests db_pending))
   /\ In req_ab (friend_requests db_pending)
   /\ FriendRequest.status req_ab = pending
   /\ In profile_alice (profiles db_pending)
   /\ Profile.id profile_alice = FriendRequest.sender_id req_ab
   /\ In friend_bob (profiles db_pending)
   /\ Profile.id friend_bob = FriendRequest.receiver_id req_ab)
  /\ In friend_bob
       (Chat.loadFriends alice (snd (Sidebar.acceptRequest 13%Z bob 7 db_pending)))
  /\ In profile_alice
       (Chat.loadFriends bob (snd (Sidebar.acceptRequest 13%Z bob 7 db_pending))).
Proof.
  assert (H1 : NoDup (map FriendRequest.id (friend_requests db_pending)))
    by concrete.
  assert (H2 : In req_ab (friend_requests db_pending)) by (simpl; now left).
  assert (H4 : In profile_alice (profiles db_pending)) by (simpl; now left).
  assert (H6 : In friend_bob (profiles db_pending)) by (simpl; right; now left).
  split; [repeat split; assumption|].
  exact (@X9_accept_puts_both_on_contact_lists 13%Z db_pending req_ab
           profile_alice friend_bob H1 H2 eq_refl H4 eq_refl H6 eq_refl).
Defined.

(** X10 at bob answering alice's request. *)
Lemma X10_answered_request_leaves_pending_list_witness :
  (NoDup (map FriendRequest.id (friend_requests db_pending))
   /\ In req_ab (friend_requests db_pending))
  /\ map fst (Chat.loadRequests bob db_pending) = [req_ab]
  /\ map fst (Chat.loadRequests bob
                 (snd (Sidebar.rejectRequest 12%Z bob 7 db_pending))) = [].
Proof.
  assert (H1 : NoDup (map FriendRequest.id (friend_requests db_pending)))
    by concrete.
  assert (H2 : In req_ab (friend_requests db_pending)) by (simpl; now left).
  split; [split; assumption|]. split; [reflexivity|].
  destruct (@X10_answered_request_leaves_pending_list 12%Z db_pending req_ab H1 H2)
    as [R _].
  exact R.
Defined.

(** X11 at alice asking bob. *)
Lemma X11_sent_request_listed_for_receiver_witness :
  ("bob@x.com"%string <> ""%string
   /\ single (filter (fun p => String.eqb (Profile.email p) "bob@x.com")
                (profiles db0)) = Some friend_bob
   /\ Profile.id friend_bob = bob
   /\ alice <> bob
   /\ find (fun p => Profile.id p =? alice) (profiles db0) = Some profile_alice
   /\ request_exists (friend_requests db0) alice bob = false)
  /\ map fst (Chat.loadRequests alice
                 (snd (Sidebar.sendFriendRequest 11%Z alice
                         (Sidebar.mk "bob@x.com" false) db0))) = [].
Proof.
  assert (H1 : "bob@x.com"%string <> ""%string) by discriminate.
  assert (H4 : alice <> bob) by discriminate.
  split; [repeat split; assumption|].
  destruct (@X11_sent_request_listed_for_receiver 11%Z alice bob "bob@x.com"
              profile_alice friend_bob (Sidebar.mk "" false) db0
              H1 eq_refl eq_refl H4 eq_refl eq_refl) as [_ R].
  exact R.
Defined.

(** X12 at an address nobody has. *)
Lemma X12_user_not_found_witness :
  Sidebar.searchEmail (Sidebar.mk "nobody@x.com" false) <> ""%string
  /\ fst (fst (Sidebar.sendFriendRequest 11%Z alice
                 (Sidebar.mk "nobody@x.com" false) db0))
     = [toast_error "User not found"].
Proof.
  assert (H : Sidebar.searchEmail (Sidebar.mk "nobody@x.com" false) <> ""%string)
    by discriminate.
  split; [exact H|].
  destruct (@X12_user_not_found 11%Z alice (Sidebar.mk "nobody@x.com" false)
              db0 H) as [[_ R] _].
  apply R. discriminate.
Defined.

(** X13 at bob accepting alice's request twice. *)
Lemma X13_accept_twice_witness :
  (NoDup (map FriendRequest.id (friend_requests db_pending))
   /\ In req_ab (friend_requests db_pending)
   /\ FriendRequest.status req_ab = pending
   /\ references (profiles db_pending) (FriendRequest.sender_id req_ab)
        (FriendRequest.receiver_id req_ab))
  /\ edges (friendships
              (snd (Sidebar.acceptRequest 14%Z bob 7
                      (snd (Sidebar.acceptRequest 13%Z bob 7 db_pending)))))
     = [(alice, bob); (bob, alice)].
Proof.
  assert (H1 : NoDup (map FriendRequest.id (friend_requests db_pending)))
    by concrete.
  assert (H2 : In req_ab (friend_requests db_pending)) by (simpl; now left).
  assert (H4 : references (profiles db_pending) (FriendRequest.sender_id req_ab)
                 (FriendRequest.receiver_id req_ab)) by (split; reflexivity).
  split; [repeat split; try assumption; apply H4|].
  destruct (@X13_accept_twice 13%Z 14%Z db_pending req_ab H1 H2 eq_refl H4)
    as (_ & _ & _).
  reflexivity.
Defined.

(** X14 at alice and bob. *)
Lemma X14_both_parties_load_the_same_witness :
  (Profile.id profile_alice = alice /\ Profile.id friend_bob = bob)
  /\ Permutation
       (ChatArea.messages
          (fst (ChatArea.loadMessages oldest_first 21%Z alice friend_bob idle db_hi)))
       (ChatArea.messages
          (fst (ChatArea.loadMessages (fun _ _ => false) 22%Z bob profile_alice
                  idle db_hi))).
Proof.
  split; [split; reflexivity|].
  destruct (@X14_both_parties_load_the_same oldest_first (fun _ _ => false)
              21%Z 22%Z alice bob profile_alice friend_bob idle idle db_hi
              eq_refl eq_refl) as [P _].
  exact P.
Defined.

(** X16 at a draft of two spaces. *)
Lemma X16_draft_dropped_iff_all_white_witness :
  ChatArea.sending (ChatArea.mk [] blanks false) = false
  /\ snd (ChatArea.sendMessage 20%Z alice (Some friend_bob)
            (ChatArea.mk [] blanks false) db0) = db0.
Proof.
  split; [reflexivity|].
  destruct (@X16_draft_dropped_iff_all_white 20%Z alice friend_bob
              (ChatArea.mk [] blanks false) db0 eq_refl) as [[_ R] _].
  apply R. repeat constructor.
Defined.

(** X17 on the example day, from a store holding "hi". *)
Lemma X17_stored_content_stays_trimmed_witness :
  Forall (fun m => Message.content m <> []
                   /\ trim (Message.content m) = Message.content m)
    (messages db_hi)
  /\ map Message.content (messages (run day db_hi)) = [hi; hi]
  /\ Forall (fun m => Message.content m <> []
                      /\ trim (Message.content m) = Message.content m)
       (messages (run day db_hi)).
Proof.
  assert (H : Forall (fun m => Message.content m <> []
                               /\ trim (Message.content m) = Message.content m)
                (messages db_hi))
    by (repeat constructor; discriminate).
  split; [exact H|]. split; [reflexivity|].
  exact (@X17_stored_content_stays_trimmed day db_hi H).
Defined.


(** X19 at alice writing to bob. *)
Lemma X19_sent_message_is_loaded_and_read_witness :
  (Profile.id profile_alice = alice /\ Profile.id friend_bob = bob
   /\ ChatArea.sending (ChatArea.mk [] padded_hi false) = false
   /\ trim (ChatArea.newMessage (ChatArea.mk [] padded_hi false)) <> []
   /\ storable_text (trim (ChatArea.newMessage (ChatArea.mk [] padded_hi false)))
      = true
   /\ references (profiles db0) alice bob)
  /\ exists row stored,
       In row (ChatArea.messages
                 (fst (ChatArea.loadMessages oldest_first 21%Z bob profile_alice
                         idle
                         (snd (ChatArea.sendMessage 20%Z alice (Some friend_bob)
                                 (ChatArea.mk [] padded_hi false) db0)))))
       /\ Message.content row = hi
       /\ In stored
            (messages
               (snd (ChatArea.loadMessages oldest_first 21%Z bob profile_alice
                       idle
                       (snd (ChatArea.sendMessage 20%Z alice (Some friend_bob)
                               (ChatArea.mk [] padded_hi false) db0)))))
       /\ Message.read stored = true.
Proof.
  assert (H4 : trim (ChatArea.newMessage (ChatArea.mk [] padded_hi false)) <> [])
    by discriminate.
  assert (H5 : references (profiles db0) alice bob) by (split; reflexivity).
  split; [repeat split; try reflexivity; try exact H4; apply H5|].
  destruct (@X19_sent_message_is_loaded_and_read oldest_first 20%Z 21%Z alice bob
              profile_alice friend_bob (ChatArea.mk [] padded_hi false) idle db0
              eq_refl eq_refl eq_refl H4 eq_refl H5)
    as (row & stored & I & _ & _ & C & S & R).
  exists row, stored. repeat split; [exact I | exact C | exact S | apply R].
Defined.

(** X22 at dave signing up. *)
Lemma X22_sign_up_keeps_constraints_witness :
  constraints db0 /\ constraints (snd (sign_up 5%Z dave db0)).
Proof.
  assert (H : constraints db0) by (unfold constraints; concrete).
  split; [exact H | exact (@X22_sign_up_keeps_constraints 5%Z dave db0 H)].
Defined.

(** X24 at alice asking dave right after his sign-up. *)
Lemma X24_new_account_can_be_found_witness :
  (constraints db0
   /\ au_email dave = Some "dave@x.com"%string
   /\ "dave@x.com"%string <> ""%string
   /\ profile_exists (profiles db0) (au_id dave) = false
   /\ (forall p, In p (profiles db0) -> Profile.email p <> "dave@x.com"%string)
   /\ profile_exists (profiles db0) alice = true)
  /\ fst (fst (Sidebar.sendFriendRequest 11%Z alice
                 (Sidebar.mk "dave@x.com" false) (snd (sign_up 5%Z dave db0))))
     = [toast_success "Friend request sent!"].
Proof.
  assert (H1 : constraints db0) by (unfold constraints; concrete).
  assert (H3 : "dave@x.com"%string <> ""%string) by discriminate.
  assert (H5 : forall p, In p (profiles db0) ->
                 Profile.email p <> "dave@x.com"%string).
  { intros p [<-|[<-|[<-|[]]]]; discriminate. }
  split; [repeat split; try assumption; apply H1|].
  destruct (@X24_new_account_can_be_found 5%Z 11%Z dave "dave@x.com" alice
              (Sidebar.mk "" false) db0 H1 eq_refl H3 eq_refl H5 eq_refl)
    as [R _].
  exact R.
Defined.

(** X20 at "hi" delivered live to bob: it stays stored as it was, unread. *)
Lemma X20_only_loadMessages_changes_messages_witness :
  (forall tie u f s, op_on_insert bob msg_hi idle <> op_loadMessages tie u f s)
  /\ messages (step 21%Z (op_on_insert bob msg_hi idle) db_hi) = [msg_hi].
Proof.
  assert (H : forall tie u f s,
            op_on_insert bob msg_hi idle <> op_loadMessages tie u f s)
    by (intros; discriminate).
  split; [exact H|].
  destruct (@X20_only_loadMessages_changes_messages 21%Z
              (op_on_insert bob msg_hi idle) db_hi H) as [more E].
  reflexivity.
Defined.
